(** * Geography quiz: session state machine, scoring, selector, leaderboard

    A shallow embedding of [App.tsx] (with [types.ts] and [constants.ts]).

    Conventions of the embedding:
    - a JavaScript [number] that holds an integer (scores, combo counters,
      indices, seconds, epoch milliseconds) is a [Z];
    - a value of [Math.random()] and the constants of [AI_CONFIG] are
      rationals ([Q]); the random source is injected as a stream;
    - a JavaScript string is the list of its UTF-16 code units;
    - React state is threaded explicitly: every handler is a function from
      the application state to the next one;
    - audio playback and the JSX markup are left out; [render] only records
      which screen is produced. *)

From Stdlib Require Import ZArith QArith Qround Lia Lqa.
From stdpp Require Import strings gmap list sorting.

Local Open Scope Z_scope.

(** ** Strings *)

(** A string is the list of its UTF-16 code units. *)
Abbreviation jsstring := (list N).

(** Code units of a literal made of ASCII characters. *)
Fixpoint js (s : string) : jsstring :=
  match s with
  | EmptyString => []
  | String c s' => Ascii.N_of_ascii c :: js s'
  end.

(** [WhiteSpace] and [LineTerminator] of ECMAScript, as removed by
    [String.prototype.trim]. *)
Definition isTrimmable (c : N) : bool :=
  ((9 <=? c) && (c <=? 13) || (c =? 32) || (c =? 160) || (c =? 5760)
   || (8192 <=? c) && (c <=? 8202) || (c =? 8232) || (c =? 8233)
   || (c =? 8239) || (c =? 8287) || (c =? 12288) || (c =? 65279))%N.

Fixpoint trimStart (s : jsstring) : jsstring :=
  match s with
  | [] => []
  | c :: s' => if isTrimmable c then trimStart s' else s
  end.

Definition trimEnd (s : jsstring) : jsstring :=
  reverse (trimStart (reverse s)).

Definition trim (s : jsstring) : jsstring := trimEnd (trimStart s).

(** [s.substring(0, n)] *)
Definition substring0 (n : nat) (s : jsstring) : jsstring := take n s.

(** Truthiness of a string: the empty string is falsy. *)
Definition truthy (s : jsstring) : bool :=
  match s with [] => false | _ :: _ => true end.

(** ** types.ts *)

Record Option_ := mkOption {
  o_id : jsstring;
  o_label : jsstring;
  o_text : jsstring;
  o_isCorrect : bool
}.

Record Question := mkQuestion {
  q_id : Z;
  country : jsstring;
  capital : jsstring;
  flagCode : jsstring;
  flagUrl : jsstring;
  questionText : jsstring;
  isCapitalQuestion : bool;
  options : list Option_;
  region : option jsstring
}.

Inductive GameStatus :=
  | start | difficulty_select | playing | finished | leaderboard.

Inductive GameMode := single | pve.

Inductive Difficulty := D1 | D2 | D3 | D4.

Record GameState := mkGameState {
  status : GameStatus;
  gameMode : GameMode;
  difficulty : Difficulty;
  score : Z;
  computerScore : Z;
  consecutiveCorrect : Z;
  computerConsecutiveCorrect : Z;
  currentQuestionIndex : Z;
  totalQuestions : Z;
  timeLeft : Z;
  selectedOptionId : option jsstring;
  isAnswerRevealed : bool;
  isPaused : bool;
  isHintActive : bool;
  isExitConfirmOpen : bool
}.

Record LeaderboardEntry := mkEntry {
  e_name : jsstring;
  e_score : Z;
  e_timestamp : Z
}.

#[global] Instance GameStatus_eq_dec : EqDecision GameStatus.
Proof. solve_decision. Defined.
#[global] Instance GameMode_eq_dec : EqDecision GameMode.
Proof. solve_decision. Defined.

(** ** constants.ts and the configuration of App.tsx *)

Definition GAME_DURATION_SECONDS : Z := 10.
Definition QUESTIONS_PER_GAME : Z := 20.
Definition MAX_LEADERBOARD_ENTRIES : nat := 10.

Record AIConfig := mkAIConfig {
  accuracy : Q;
  minDelay : Q;
  maxDelay : Q
}.

Definition AI_CONFIG (d : Difficulty) : AIConfig :=
  match d with
  | D1 => mkAIConfig (50 # 100) 6 10
  | D2 => mkAIConfig (65 # 100) 5 8
  | D3 => mkAIConfig (75 # 100) (35 # 10) 6
  | D4 => mkAIConfig (85 # 100) 2 4
  end.

(** ** The random source

    [Math.random] is an injected stream of rationals; a draw returns the
    head and the rest of the stream. *)

Definition rng := nat -> Q.

Definition random (g : rng) : Q * rng := (g O, fun n => g (S n)).

(** Every value of the stream lies in [0, 1), as [Math.random] promises. *)
Definition rng_ok (g : rng) : Prop := forall n, (0 <= g n)%Q /\ (g n < 1)%Q.

Definition Qltb (x y : Q) : bool := negb (Qle_bool y x).

(** ** Unified scoring logic *)

Definition calculateNewScoreState
    (currentScore currentConsecutive : Z) (isCorrect isHintUsed : bool)
  : Z * Z :=
  if isCorrect then
    if isHintUsed then (currentScore, 0)
    else (currentScore + (100 + currentConsecutive * 25),
          currentConsecutive + 1)
  else (currentScore - 50, 0).

(** The scoring engine as the specification words it. *)
Inductive Outcome := CorrectNoHint | CorrectWithHint | Incorrect.

Definition outcomeOf (isCorrect hintUsed : bool) : Outcome :=
  match isCorrect, hintUsed with
  | true, false => CorrectNoHint
  | true, true => CorrectWithHint
  | false, _ => Incorrect
  end.

Definition applyOutcome_spec (score0 combo : Z) (isCorrect hintUsed : bool)
  : Z * Z :=
  match outcomeOf isCorrect hintUsed with
  | CorrectNoHint => (score0 + 100 + 25 * combo, combo + 1)
  | CorrectWithHint => (score0, 0)
  | Incorrect => (score0 - 50, 0)
  end.

(** ** Arrays *)

(** [arr[i]] for a numeric index: [undefined] outside the array. *)
Definition lookupZ {A} (arr : list A) (i : Z) : option A :=
  if i <? 0 then None else arr !! Z.to_nat i.

(** [[arr[i], arr[j]] = [arr[j], arr[i]]].  Both indices are inside the
    array wherever [shuffle] uses it (see [random_index_in_range]); outside,
    where JavaScript would leave holes, the array is left as it is. *)
Definition swap {A} (i j : nat) (arr : list A) : list A :=
  match arr !! i, arr !! j with
  | Some x, Some y => <[j := x]> (<[i := y]> arr)
  | _, _ => arr
  end.

(** ** Question selector *)

(** [Math.floor(Math.random() * (i + 1))] for a drawn value [r]. *)
Definition randomIndex (r : Q) (i : nat) : nat :=
  Z.to_nat (Qfloor (r * inject_Z (Z.of_nat i + 1))).

(** The Fisher-Yates loop [for (i = ...; i > 0; i--)], from index [i]. *)
Fixpoint shuffle_from {A} (i : nat) (newArr : list A) (g : rng)
  : list A * rng :=
  match i with
  | O => (newArr, g)
  | S i' =>
      let (r, g') := random g in
      shuffle_from i' (swap i (randomIndex r i) newArr) g'
  end.

Definition shuffle {A} (arr : list A) (g : rng) : list A * rng :=
  shuffle_from (length arr - 1) arr g.

Definition EastAsia : jsstring := js "EastAsia"%string.

(** One selection loop: [selectedQuestions] and [selectedCountries] are
    threaded through; [limit] is the bound of the [break]. *)
Fixpoint selectLoop (limit : Z) (qs : list Question)
    (sel : list Question * gset jsstring) : list Question * gset jsstring :=
  match qs with
  | [] => sel
  | q :: rest =>
      let (selectedQuestions, selectedCountries) := sel in
      if limit <=? Z.of_nat (length selectedQuestions) then sel
      else if bool_decide (country q ∈ selectedCountries)
      then selectLoop limit rest sel
      else selectLoop limit rest
             (selectedQuestions ++ [q], selectedCountries ∪ {[country q]})
  end.

Definition targetEastAsiaCount : Z := 10.

Definition getWeightedQuestions (allQuestions : list Question) (g : rng)
  : list Question * rng :=
  let eastAsia := filter (fun q => region q = Some EastAsia) allQuestions in
  let others := filter (fun q => region q <> Some EastAsia) allQuestions in
  let (shuffledEastAsia, g1) := shuffle eastAsia g in
  let (shuffledOthers, g2) := shuffle others g1 in
  let sel1 := selectLoop targetEastAsiaCount shuffledEastAsia ([], ∅) in
  let sel2 := selectLoop QUESTIONS_PER_GAME shuffledOthers sel1 in
  shuffle (fst sel2) g2.

(** ** Leaderboard helpers *)

(** What [localStorage.getItem] finds under a key.  [Missing]: nothing, or
    the empty string; both are falsy, and the code tests the text for
    truthiness before it reads it.  [Garbled]: a text that is not empty and
    that the reader rejects ([JSON.parse] throws, [parseInt] gives [NaN]).
    [Holds a]: a text that is not empty and that the reader reads as [a], as
    it does every value written by the program. *)
Inductive item (A : Type) :=
  | Missing
  | Garbled
  | Holds (a : A).
Arguments Missing {A}.
Arguments Garbled {A}.
Arguments Holds {A} a.

Record Storage := mkStorage {
  quiz_leaderboard : item (list LeaderboardEntry);
  quiz_last_reset : item Z
}.

Definition getLeaderboard (st : Storage) : list LeaderboardEntry :=
  match quiz_leaderboard st with
  | Holds data => data
  | Missing | Garbled => []
  end.

Definition saveLeaderboard (entries : list LeaderboardEntry) (st : Storage)
  : Storage :=
  mkStorage (Holds entries) (quiz_last_reset st).

(** Local time.  The Date object reads local time through the offset of
    the host's time zone from UTC, in milliseconds: [offsetAt] is the offset
    in force at a UTC instant ([LocalTime]), [offsetOfLocal] the offset that
    goes with a local time value ([UTC]); for a wall-clock time that a clock
    change skips or repeats, ECMAScript takes the offset before the
    change. *)
Record TimeZone := mkTimeZone {
  offsetAt : Z -> Z;
  offsetOfLocal : Z -> Z
}.

(** A zone whose clock never changes: [tz] milliseconds east of UTC. *)
Definition fixedOffset (tz : Z) : TimeZone :=
  mkTimeZone (fun _ => tz) (fun _ => tz).

Definition msPerDay : Z := 86400000.

Definition LocalTime (z : TimeZone) (t : Z) : Z := t + offsetAt z t.

Definition UTC (z : TimeZone) (l : Z) : Z := l - offsetOfLocal z l.

(** [Day] and [WeekDay] of a time value: 0 is Sunday; 1 January 1970 was a
    Thursday. *)
Definition Day (l : Z) : Z := l / msPerDay.

Definition WeekDay (l : Z) : Z := (Day l + 4) mod 7.

(** [d.getDay()] *)
Definition getDay (z : TimeZone) (t : Z) : Z := WeekDay (LocalTime z t).

(** [d.setDate(d.getDate() - k)]: the same wall-clock time on the date [k]
    days earlier, taken back to an instant. *)
Definition setDateBack (z : TimeZone) (k t : Z) : Z :=
  UTC z (LocalTime z t - k * msPerDay).

(** [d.setHours(0, 0, 0, 0)]: 00:00 on the local date of [t], taken back to
    an instant. *)
Definition setHoursZero (z : TimeZone) (t : Z) : Z :=
  UTC z (Day (LocalTime z t) * msPerDay).

Definition lastMondayOf (z : TimeZone) (now : Z) : Z :=
  let currentDay := getDay z now in
  let distanceToMonday := (currentDay + 6) mod 7 in
  setHoursZero z (setDateBack z distanceToMonday now).

Definition checkWeeklyReset (z : TimeZone) (now : Z) (st : Storage)
  : Storage :=
  let lastMonday := lastMondayOf z now in
  let resetDue :=
    match quiz_last_reset st with
    | Missing => true
    | Garbled => false
    | Holds lastReset => lastReset <? lastMonday
    end in
  if resetDue then mkStorage Missing (Holds now) else st.

Definition isHighScore (sc : Z) (st : Storage) : bool :=
  if sc <=? 0 then false
  else
    let lb := getLeaderboard st in
    if bool_decide (length lb < MAX_LEADERBOARD_ENTRIES)%nat then true
    else match last lb with
         | Some e => e_score e <? sc
         | None => false
         end.

(** [Array.prototype.sort] is stable; it is modelled as the stable insertion
    sort for a comparator [cmp], where [cmp a b > 0] puts [a] after [b]. *)
Fixpoint sortInsert {A} (cmp : A -> A -> Z) (a : A) (l : list A) : list A :=
  match l with
  | [] => [a]
  | b :: l' => if 0 <? cmp a b then b :: sortInsert cmp a l' else a :: l
  end.

Fixpoint sortBy {A} (cmp : A -> A -> Z) (l : list A) : list A :=
  match l with
  | [] => []
  | a :: l' => sortInsert cmp a (sortBy cmp l')
  end.

(** The comparator of [handleSaveScore]: [(a, b) => b.score - a.score]. *)
Definition byScoreDesc (a b : LeaderboardEntry) : Z := e_score b - e_score a.

(** ** The App component: state *)

(** Callbacks handed to [setTimeout]. *)
Inductive Callback :=
  | CallHandleNext
  | ShowLeaderboard.

Record App := mkApp {
  gameState : GameState;
  activeQuestions : list Question;
  playerName : jsstring;
  isScoreSaved : bool;
  aiAnsweredRef : bool;
  aiTriggerTimeRef : Q;
  localStorage : Storage;
  (** pending [setTimeout] calls: delay in milliseconds and callback *)
  timeouts : list (Z * Callback)
}.

Definition initialGameState : GameState :=
  {| status := start; gameMode := single; difficulty := D2;
     score := 0; computerScore := 0;
     consecutiveCorrect := 0; computerConsecutiveCorrect := 0;
     currentQuestionIndex := 0; totalQuestions := QUESTIONS_PER_GAME;
     timeLeft := GAME_DURATION_SECONDS; selectedOptionId := None;
     isAnswerRevealed := false; isPaused := false;
     isHintActive := false; isExitConfirmOpen := false |}.

(** Field updates, for the object spreads [{ ...prev, field: v }]. *)
Definition set_status (v : GameStatus) (s : GameState) : GameState :=
  mkGameState v (gameMode s) (difficulty s) (score s) (computerScore s)
    (consecutiveCorrect s) (computerConsecutiveCorrect s)
    (currentQuestionIndex s) (totalQuestions s) (timeLeft s)
    (selectedOptionId s) (isAnswerRevealed s) (isPaused s) (isHintActive s)
    (isExitConfirmOpen s).

Definition set_gameMode (v : GameMode) (s : GameState) : GameState :=
  mkGameState (status s) v (difficulty s) (score s) (computerScore s)
    (consecutiveCorrect s) (computerConsecutiveCorrect s)
    (currentQuestionIndex s) (totalQuestions s) (timeLeft s)
    (selectedOptionId s) (isAnswerRevealed s) (isPaused s) (isHintActive s)
    (isExitConfirmOpen s).

Definition set_score (v : Z) (s : GameState) : GameState :=
  mkGameState (status s) (gameMode s) (difficulty s) v (computerScore s)
    (consecutiveCorrect s) (computerConsecutiveCorrect s)
    (currentQuestionIndex s) (totalQuestions s) (timeLeft s)
    (selectedOptionId s) (isAnswerRevealed s) (isPaused s) (isHintActive s)
    (isExitConfirmOpen s).

Definition set_computerScore (v : Z) (s : GameState) : GameState :=
  mkGameState (status s) (gameMode s) (difficulty s) (score s) v
    (consecutiveCorrect s) (computerConsecutiveCorrect s)
    (currentQuestionIndex s) (totalQuestions s) (timeLeft s)
    (selectedOptionId s) (isAnswerRevealed s) (isPaused s) (isHintActive s)
    (isExitConfirmOpen s).

Definition set_consecutiveCorrect (v : Z) (s : GameState) : GameState :=
  mkGameState (status s) (gameMode s) (difficulty s) (score s)
    (computerScore s) v (computerConsecutiveCorrect s)
    (currentQuestionIndex s) (totalQuestions s) (timeLeft s)
    (selectedOptionId s) (isAnswerRevealed s) (isPaused s) (isHintActive s)
    (isExitConfirmOpen s).

Definition set_computerConsecutiveCorrect (v : Z) (s : GameState)
  : GameState :=
  mkGameState (status s) (gameMode s) (difficulty s) (score s)
    (computerScore s) (consecutiveCorrect s) v
    (currentQuestionIndex s) (totalQuestions s) (timeLeft s)
    (selectedOptionId s) (isAnswerRevealed s) (isPaused s) (isHintActive s)
    (isExitConfirmOpen s).

Definition set_currentQuestionIndex (v : Z) (s : GameState) : GameState :=
  mkGameState (status s) (gameMode s) (difficulty s) (score s)
    (computerScore s) (consecutiveCorrect s) (computerConsecutiveCorrect s)
    v (totalQuestions s) (timeLeft s)
    (selectedOptionId s) (isAnswerRevealed s) (isPaused s) (isHintActive s)
    (isExitConfirmOpen s).

Definition set_timeLeft (v : Z) (s : GameState) : GameState :=
  mkGameState (status s) (gameMode s) (difficulty s) (score s)
    (computerScore s) (consecutiveCorrect s) (computerConsecutiveCorrect s)
    (currentQuestionIndex s) (totalQuestions s) v
    (selectedOptionId s) (isAnswerRevealed s) (isPaused s) (isHintActive s)
    (isExitConfirmOpen s).

Definition set_selectedOptionId (v : option jsstring) (s : GameState)
  : GameState :=
  mkGameState (status s) (gameMode s) (difficulty s) (score s)
    (computerScore s) (consecutiveCorrect s) (computerConsecutiveCorrect s)
    (currentQuestionIndex s) (totalQuestions s) (timeLeft s)
    v (isAnswerRevealed s) (isPaused s) (isHintActive s)
    (isExitConfirmOpen s).

Definition set_isAnswerRevealed (v : bool) (s : GameState) : GameState :=
  mkGameState (status s) (gameMode s) (difficulty s) (score s)
    (computerScore s) (consecutiveCorrect s) (computerConsecutiveCorrect s)
    (currentQuestionIndex s) (totalQuestions s) (timeLeft s)
    (selectedOptionId s) v (isPaused s) (isHintActive s)
    (isExitConfirmOpen s).

Definition set_isPaused (v : bool) (s : GameState) : GameState :=
  mkGameState (status s) (gameMode s) (difficulty s) (score s)
    (computerScore s) (consecutiveCorrect s) (computerConsecutiveCorrect s)
    (currentQuestionIndex s) (totalQuestions s) (timeLeft s)
    (selectedOptionId s) (isAnswerRevealed s) v (isHintActive s)
    (isExitConfirmOpen s).

Definition set_isHintActive (v : bool) (s : GameState) : GameState :=
  mkGameState (status s) (gameMode s) (difficulty s) (score s)
    (computerScore s) (consecutiveCorrect s) (computerConsecutiveCorrect s)
    (currentQuestionIndex s) (totalQuestions s) (timeLeft s)
    (selectedOptionId s) (isAnswerRevealed s) (isPaused s) v
    (isExitConfirmOpen s).

Definition set_isExitConfirmOpen (v : bool) (s : GameState) : GameState :=
  mkGameState (status s) (gameMode s) (difficulty s) (score s)
    (computerScore s) (consecutiveCorrect s) (computerConsecutiveCorrect s)
    (currentQuestionIndex s) (totalQuestions s) (timeLeft s)
    (selectedOptionId s) (isAnswerRevealed s) (isPaused s) (isHintActive s)
    v.

(** [setGameState(f)] and the other state setters. *)
Definition setGameState (f : GameState -> GameState) (a : App) : App :=
  mkApp (f (gameState a)) (activeQuestions a) (playerName a)
    (isScoreSaved a) (aiAnsweredRef a) (aiTriggerTimeRef a)
    (localStorage a) (timeouts a).

Definition setActiveQuestions (qs : list Question) (a : App) : App :=
  mkApp (gameState a) qs (playerName a) (isScoreSaved a)
    (aiAnsweredRef a) (aiTriggerTimeRef a) (localStorage a) (timeouts a).

Definition setPlayerName (n : jsstring) (a : App) : App :=
  mkApp (gameState a) (activeQuestions a) n (isScoreSaved a)
    (aiAnsweredRef a) (aiTriggerTimeRef a) (localStorage a) (timeouts a).

Definition setIsScoreSaved (b : bool) (a : App) : App :=
  mkApp (gameState a) (activeQuestions a) (playerName a) b
    (aiAnsweredRef a) (aiTriggerTimeRef a) (localStorage a) (timeouts a).

Definition setAiAnswered (b : bool) (a : App) : App :=
  mkApp (gameState a) (activeQuestions a) (playerName a) (isScoreSaved a)
    b (aiTriggerTimeRef a) (localStorage a) (timeouts a).

Definition setAiTriggerTime (t : Q) (a : App) : App :=
  mkApp (gameState a) (activeQuestions a) (playerName a) (isScoreSaved a)
    (aiAnsweredRef a) t (localStorage a) (timeouts a).

Definition setLocalStorage (st : Storage) (a : App) : App :=
  mkApp (gameState a) (activeQuestions a) (playerName a) (isScoreSaved a)
    (aiAnsweredRef a) (aiTriggerTimeRef a) st (timeouts a).

(** [setTimeout(cb, ms)] *)
Definition setTimeout (cb : Callback) (ms : Z) (a : App) : App :=
  mkApp (gameState a) (activeQuestions a) (playerName a) (isScoreSaved a)
    (aiAnsweredRef a) (aiTriggerTimeRef a) (localStorage a)
    (timeouts a ++ [(ms, cb)]).

(** ** The App component: effects and handlers *)

(** The effect "Initialize AI for new question".  The arithmetic is on
    doubles: [fl] is the rounding, applied to the result of each
    operation. *)
Definition initAIWith (fl : Q -> Q) (a : App) (g : rng) : App * rng :=
  let gs := gameState a in
  if bool_decide (status gs = playing) && bool_decide (gameMode gs = pve)
  then
    let config := AI_CONFIG (difficulty gs) in
    let range := fl (maxDelay config - minDelay config)%Q in
    let (r, g') := random g in
    let delay := fl (minDelay config + fl (r * range))%Q in
    (setAiTriggerTime (fl (inject_Z GAME_DURATION_SECONDS - delay))%Q
       (setAiAnswered false a), g')
  else (a, g).

(** The effect with exact arithmetic. *)
Definition initAI (a : App) (g : rng) : App * rng :=
  initAIWith (fun q => q) a g.

Definition startPlaying (QUIZ_DATA : list Question)
    (mode : GameMode) (diff : Difficulty) (a : App) (g : rng) : App * rng :=
  let (qs, g') := getWeightedQuestions QUIZ_DATA g in
  (setIsScoreSaved false
     (setPlayerName []
        (setGameState
           (fun _ =>
              {| status := playing; gameMode := mode; difficulty := diff;
                 score := 0; computerScore := 0;
                 consecutiveCorrect := 0; computerConsecutiveCorrect := 0;
                 currentQuestionIndex := 0;
                 totalQuestions := QUESTIONS_PER_GAME;
                 timeLeft := GAME_DURATION_SECONDS;
                 selectedOptionId := None;
                 isAnswerRevealed := false; isPaused := false;
                 isHintActive := false; isExitConfirmOpen := false |})
           (setActiveQuestions qs a))), g').

Definition handleModeSelect (QUIZ_DATA : list Question) (mode : GameMode)
    (a : App) (g : rng) : App * rng :=
  match mode with
  | single => startPlaying QUIZ_DATA single D2 a g
  | pve =>
      (setGameState
         (fun prev => set_gameMode pve (set_status difficulty_select prev))
         a, g)
  end.

Definition handleDifficultySelect (QUIZ_DATA : list Question)
    (diff : Difficulty) (a : App) (g : rng) : App * rng :=
  startPlaying QUIZ_DATA pve diff a g.

Definition handleRestartGame (a : App) : App :=
  setIsScoreSaved false
    (setPlayerName []
       (setActiveQuestions []
          (setGameState (fun _ => initialGameState) a))).

Definition handleViewLeaderboard (a : App) : App :=
  setGameState (set_status leaderboard) a.

(** [now] is the value of [Date.now()]. *)
Definition handleSaveScore (now : Z) (a : App) : App :=
  if negb (truthy (trim (playerName a))) then a
  else
    let lb := getLeaderboard (localStorage a) in
    let newEntry :=
      {| e_name := substring0 10 (trim (playerName a));
         e_score := score (gameState a);
         e_timestamp := now |} in
    let lb := sortBy byScoreDesc (lb ++ [newEntry]) in
    let updatedLeaderboard := take MAX_LEADERBOARD_ENTRIES lb in
    setTimeout ShowLeaderboard 500
      (setIsScoreSaved true
         (setLocalStorage
            (saveLeaderboard updatedLeaderboard (localStorage a)) a)).

Definition handleExitRequest (a : App) : App :=
  if bool_decide (status (gameState a) = playing)
  then setGameState (set_isExitConfirmOpen true) a
  else a.

Definition handleConfirmExit (a : App) : App :=
  setActiveQuestions []
    (setGameState
       (fun prev => set_isExitConfirmOpen false (set_status start prev)) a).

Definition handleCancelExit (a : App) : App :=
  setGameState (set_isExitConfirmOpen false) a.

(** The state update of [handleNext]. *)
Definition nextState (prev : GameState) : GameState :=
  let nextIndex := currentQuestionIndex prev + 1 in
  if totalQuestions prev <=? nextIndex then set_status finished prev
  else
    set_isHintActive false
      (set_isPaused false
         (set_isAnswerRevealed false
            (set_selectedOptionId None
               (set_timeLeft GAME_DURATION_SECONDS
                  (set_currentQuestionIndex nextIndex prev))))).

Definition handleNext (a : App) : App := setGameState nextState a.

(** [executeAIAnswer], with the ref [aiAnsweredRef] and the random source
    passed in and out. *)
Definition executeAIAnswer (currentState : GameState) (answered : bool)
    (g : rng) : GameState * bool * rng :=
  if answered then (currentState, answered, g)
  else
    let config := AI_CONFIG (difficulty currentState) in
    let (r, g') := random g in
    let isCorrect := Qltb r (accuracy config) in
    let (newComputerScore, newComputerConsecutive) :=
      calculateNewScoreState (computerScore currentState)
        (computerConsecutiveCorrect currentState) isCorrect false in
    (set_computerConsecutiveCorrect newComputerConsecutive
       (set_computerScore newComputerScore currentState), true, g').

(** The state update of the timeout branch of the timer effect. *)
Definition timeoutUpdate (prev : GameState) (answered : bool) (g : rng)
  : GameState * bool * rng :=
  let '(next, answered', g') :=
    match gameMode prev with
    | pve => executeAIAnswer prev answered g
    | single => (prev, answered, g)
    end in
  (set_isAnswerRevealed true
     (set_score (score prev - 50) (set_consecutiveCorrect 0 next)),
   answered', g').

(** One run of the body of the timer effect (the interval it installs is
    [tick]). *)
Definition timerEffect (a : App) (g : rng) : App * rng :=
  let gs := gameState a in
  if negb (bool_decide (status gs = playing)) then (a, g)
  else if isAnswerRevealed gs || isPaused gs || isExitConfirmOpen gs
  then (a, g)
  else if timeLeft gs <=? 0 then
    let '(s', answered', g') := timeoutUpdate gs (aiAnsweredRef a) g in
    (setTimeout CallHandleNext 1500
       (setAiAnswered answered' (setGameState (fun _ => s') a)), g')
  else if bool_decide (gameMode gs = pve) && negb (aiAnsweredRef a)
          && Qle_bool (inject_Z (timeLeft gs)) (aiTriggerTimeRef a)
  then
    let '(s', answered', g') := executeAIAnswer gs (aiAnsweredRef a) g in
    (setAiAnswered answered' (setGameState (fun _ => s') a), g')
  else (a, g).

(** The callback of the one-second interval. *)
Definition tick (a : App) : App :=
  setGameState (fun prev => set_timeLeft (timeLeft prev - 1) prev) a.

Definition handlePause (a : App) : App :=
  let gs := gameState a in
  if isAnswerRevealed gs || isExitConfirmOpen gs then a
  else setGameState (fun prev => set_isPaused (negb (isPaused prev)) prev) a.

Definition handleHint (a : App) : App :=
  let gs := gameState a in
  if isAnswerRevealed gs || isPaused gs || isHintActive gs
     || isExitConfirmOpen gs
  then a
  else
    setGameState
      (fun prev => set_isHintActive true (set_score (score prev - 100) prev))
      a.

(** [options.find(o => o.id === id)?.isCorrect], coerced by [!!]. *)
Definition optionIsCorrect (id : jsstring) (opts : list Option_) : bool :=
  match List.find (fun o => bool_decide (o_id o = id)) opts with
  | Some o => o_isCorrect o
  | None => false
  end.

Definition handleSelectOption (id : jsstring) (a : App) (g : rng)
  : App * rng :=
  let gs := gameState a in
  if isAnswerRevealed gs || isPaused gs || isExitConfirmOpen gs then (a, g)
  else
    match lookupZ (activeQuestions a) (currentQuestionIndex gs) with
    | None => (a, g)
    | Some currentData =>
        let isCorrect := optionIsCorrect id (options currentData) in
        let prev := gs in
        let (newScore, newConsecutive) :=
          calculateNewScoreState (score prev) (consecutiveCorrect prev)
            isCorrect (isHintActive prev) in
        let next :=
          set_consecutiveCorrect newConsecutive
            (set_score newScore
               (set_isAnswerRevealed true
                  (set_selectedOptionId (Some id) prev))) in
        let '(next, answered', g') :=
          if bool_decide (gameMode prev = pve) && negb (aiAnsweredRef a)
          then executeAIAnswer next (aiAnsweredRef a) g
          else (next, aiAnsweredRef a, g) in
        (setTimeout CallHandleNext 1500
           (setAiAnswered answered' (setGameState (fun _ => next) a)), g')
    end.

(** What a pending timeout does when it fires. *)
Definition runCallback (cb : Callback) (a : App) : App :=
  match cb with
  | CallHandleNext => handleNext a
  | ShowLeaderboard => setGameState (set_status leaderboard) a
  end.

(** ** Rendering *)

(** [activeQuestions[i] || activeQuestions[0]] *)
Definition currentQuestionData (a : App) : option Question :=
  match lookupZ (activeQuestions a) (currentQuestionIndex (gameState a)) with
  | Some q => Some q
  | None => lookupZ (activeQuestions a) 0
  end.

(** The screen a render produces; [Blank] is [return null]. *)
Inductive Screen :=
  | StartScreen
  | DifficultyScreen
  | LeaderboardScreen
  | FinishedScreen
  | Blank
  | PlayingScreen (question : Question).

Definition render (a : App) : Screen :=
  match status (gameState a) with
  | start => StartScreen
  | difficulty_select => DifficultyScreen
  | leaderboard => LeaderboardScreen
  | finished => FinishedScreen
  | playing =>
      match currentQuestionData a with
      | None => Blank
      | Some q => PlayingScreen q
      end
  end.

(** ** The specification's notions, for comparison with the code *)



(** The days from the Monday of the week to the date of a local time. *)
Definition daysSinceMonday (l : Z) : Z := (WeekDay l - 1) mod 7.

(** The Monday of the local week has the wall-clock time of [now]: the
    local time of [now] moved back to that Monday, taken to an instant and
    read again, is still on that Monday.  A clock change may skip or repeat
    the time, but does not carry it over a midnight. *)
Definition wallClockStable (z : TimeZone) (now : Z) : Prop :=
  let l := LocalTime z now - daysSinceMonday (LocalTime z now) * msPerDay in
  Day (LocalTime z (UTC z l)) = Day l.

(** What the statements below need of the rounding of doubles: it is
    monotone, and it leaves the quarters from -10 to 10 as they are. *)
Definition roundingOK (fl : Q -> Q) : Prop :=
  (forall x y, (x <= y)%Q -> (fl x <= fl y)%Q)
  /\ (forall n : Z, -40 <= n <= 40 -> (fl (n # 4) == n # 4)%Q).

(** A coarse rounding, for examples: down to the next eighth. *)
Definition roundToEighths (x : Q) : Q := Qfloor (x * 8) # 8.

(** A name that is empty or made of white space only. *)
Definition blankName (s : jsstring) : Prop :=
  Forall (fun c => isTrimmable c = true) s.

(** Sorted descending by score. *)
Definition sortedDesc (l : list LeaderboardEntry) : Prop :=
  StronglySorted (fun a b => e_score b <= e_score a) l.

(** The questions of the region-tagged subset. *)
Definition eastAsiaOf (qs : list Question) : list Question :=
  filter (fun q => region q = Some EastAsia) qs.

(** The invariant of the selection loops: the selected countries are
    distinct and all recorded in the set. *)
Definition selectionOK (sel : list Question * gset jsstring) : Prop :=
  NoDup (country <$> sel.1) /\ forall q, q ∈ sel.1 -> country q ∈ sel.2.

(** ** Sample data *)

Definition constRng (r : Q) : rng := fun _ => r.

Definition sampleOptions : list Option_ :=
  [ mkOption (js "A") (js "A") (js "Lagos") false;
    mkOption (js "B") (js "B") (js "Pretoria") true;
    mkOption (js "C") (js "C") (js "Brasilia") false;
    mkOption (js "D") (js "D") (js "Canberra") false ].

Definition sampleQuestion (n : Z) (c : string) (r : option jsstring)
  : Question :=
  mkQuestion n (js c) (js "capital") (js "xx") (js "url") (js "text") true
    sampleOptions r.

Definition sampleBank : list Question :=
  [ sampleQuestion 1 "Japan" (Some EastAsia);
    sampleQuestion 2 "Japan" (Some EastAsia);
    sampleQuestion 3 "Korea" (Some EastAsia);
    sampleQuestion 4 "Brazil" None;
    sampleQuestion 5 "Brazil" (Some (js "America"));
    sampleQuestion 6 "Kenya" None ].

(** A game in progress: fourth question, 250 points, a streak of two. *)
Definition samplePlaying : GameState :=
  {| status := playing; gameMode := pve; difficulty := D1;
     score := 250; computerScore := 0;
     consecutiveCorrect := 2; computerConsecutiveCorrect := 0;
     currentQuestionIndex := 3; totalQuestions := QUESTIONS_PER_GAME;
     timeLeft := 0; selectedOptionId := None;
     isAnswerRevealed := false; isPaused := false;
     isHintActive := false; isExitConfirmOpen := false |}.

Definition emptyStorage : Storage := mkStorage Missing Missing.

(** New York in March 2024: UTC-5 until 10 March, 07:00 UTC, when 02:00
    local becomes 03:00, and UTC-4 from then on. *)
Definition newYork2024 : TimeZone :=
  mkTimeZone
    (fun t => if t <? 1710054000000 then -18000000 else -14400000)
    (fun l => if l <? 1710039600000 then -18000000 else -14400000).

Definition sampleApp : App :=
  {| gameState := samplePlaying; activeQuestions := sampleBank;
     playerName := []; isScoreSaved := false;
     aiAnsweredRef := false; aiTriggerTimeRef := 1 # 2;
     localStorage := emptyStorage; timeouts := [] |}.

(** ** Runs of the application *)

(** A streak: [n] answers in a row, all correct and without hint, scored one
    after the other from score and combo [p]. *)
Definition correctStreak (n : nat) (p : Z * Z) : Z * Z :=
  Nat.iter n (fun p => calculateNewScoreState p.1 p.2 true false) p.

(** [k] advances in a row. *)
Definition advances (k : nat) (s : GameState) : GameState :=
  Nat.iter k nextState s.

(** The timer effect installs its one-second interval only when it gets
    past its guards and the timeout branch. *)
Definition timerRunning (a : App) : bool :=
  let gs := gameState a in
  bool_decide (status gs = playing)
  && negb (isAnswerRevealed gs || isPaused gs || isExitConfirmOpen gs)
  && (0 <? timeLeft gs).

(** One second of an undisturbed timer: the effect runs for the current
    state and, if it installed the interval, the interval fires once. *)
Definition second (p : App * rng) : App * rng :=
  let (a', g') := timerEffect p.1 p.2 in
  if timerRunning p.1 then (tick a', g') else (a', g').

Definition seconds (n : nat) (p : App * rng) : App * rng :=
  Nat.iter n second p.

(** The events the component reacts to: the mount effect, the buttons and
    keys, the effects and the timers.  [BackToMenu] is the inline handler of
    the back buttons of the difficulty and leaderboard screens; the keys
    call the handlers of [Pause], [Hint], [ExitRequest], [CancelExit] and
    [SelectOption].  The interval of the background animation and the
    animated counters only move the background offset and the displayed
    numbers, which are not part of [App]. *)
Inductive Event :=
  | Mount (z : TimeZone) (now : Z)
  | ModeSelect (mode : GameMode)
  | DifficultySelect (diff : Difficulty)
  | BackToMenu
  | RestartGame
  | ViewLeaderboard
  | TypeName (name : jsstring)
  | SaveScore (now : Z)
  | ExitRequest
  | ConfirmExit
  | CancelExit
  | Pause
  | Hint
  | SelectOption (id : jsstring)
  | InitAIEffect
  | TimerEffect
  | Tick
  | Fire (n : nat).

(** The [n]-th pending timeout fires and leaves the queue. *)
Definition fire (n : nat) (a : App) : App :=
  match timeouts a !! n with
  | Some (_, cb) =>
      runCallback cb
        (mkApp (gameState a) (activeQuestions a) (playerName a)
           (isScoreSaved a) (aiAnsweredRef a) (aiTriggerTimeRef a)
           (localStorage a) (delete n (timeouts a)))
  | None => a
  end.

(** The reaction to one event.  No event is filtered by the screen that
    offers it, so the runs of [step] include every run of the interface. *)
Definition step (QUIZ_DATA : list Question) (p : App * rng) (e : Event)
  : App * rng :=
  let (a, g) := p in
  match e with
  | Mount z now =>
      (setLocalStorage (checkWeeklyReset z now (localStorage a)) a, g)
  | ModeSelect mode => handleModeSelect QUIZ_DATA mode a g
  | DifficultySelect diff => handleDifficultySelect QUIZ_DATA diff a g
  | BackToMenu => (setGameState (set_status start) a, g)
  | RestartGame => (handleRestartGame a, g)
  | ViewLeaderboard => (handleViewLeaderboard a, g)
  | TypeName name => (setPlayerName name a, g)
  | SaveScore now => (handleSaveScore now a, g)
  | ExitRequest => (handleExitRequest a, g)
  | ConfirmExit => (handleConfirmExit a, g)
  | CancelExit => (handleCancelExit a, g)
  | Pause => (handlePause a, g)
  | Hint => (handleHint a, g)
  | SelectOption id => handleSelectOption id a g
  | InitAIEffect => initAI a g
  | TimerEffect => timerEffect a g
  | Tick => (tick a, g)
  | Fire n => (fire n a, g)
  end.

Definition run (QUIZ_DATA : list Question) (es : list Event)
    (p : App * rng) : App * rng :=
  fold_left (step QUIZ_DATA) es p.

(** The component as first rendered, over a given store. *)
Definition initialApp (st : Storage) : App :=
  {| gameState := initialGameState; activeQuestions := [];
     playerName := []; isScoreSaved := false;
     aiAnsweredRef := false; aiTriggerTimeRef := 0;
     localStorage := st; timeouts := [] |}.

(** The session invariant. *)
Definition sessionOK (gs : GameState) : Prop :=
  totalQuestions gs = QUESTIONS_PER_GAME
  /\ 0 <= currentQuestionIndex gs < totalQuestions gs
  /\ timeLeft gs <= GAME_DURATION_SECONDS
  /\ 0 <= consecutiveCorrect gs
  /\ 0 <= computerConsecutiveCorrect gs.

(** The leaderboard invariant: sorted descending and within the cap. *)
Definition storeOK (st : Storage) : Prop :=
  sortedDesc (getLeaderboard st)
  /\ (length (getLeaderboard st) <= MAX_LEADERBOARD_ENTRIES)%nat.

(** The finished screen offers the name form under this condition. *)
Definition canSubmitScore (a : App) : bool :=
  bool_decide (gameMode (gameState a) = single)
  && isHighScore (score (gameState a)) (localStorage a)
  && negb (isScoreSaved a).

(** * Properties *)

(** ** Scoring engine *)

Lemma Qltb_spec (x y : Q) : Qltb x y = true <-> (x < y)%Q.
Proof.
  unfold Qltb. rewrite negb_true_iff, <- not_true_iff_false, Qle_bool_iff.
  split; [apply Qnot_le_lt | apply Qlt_not_le].
Qed.

(** C1. [calculateNewScoreState] is the specification's [applyOutcome]:
    correct without hint adds [100 + 25 * combo] and extends the streak;
    correct with hint adds nothing and ends the streak; incorrect deducts 50,
    ends the streak and has no floor at zero. *)
Theorem calculateNewScoreState_is_applyOutcome (sc combo : Z) :
  (forall isCorrect hintUsed,
      calculateNewScoreState sc combo isCorrect hintUsed
      = applyOutcome_spec sc combo isCorrect hintUsed)
  /\ calculateNewScoreState sc combo true false
     = (sc + 100 + 25 * combo, combo + 1)
  /\ calculateNewScoreState sc combo true true = (sc, 0)
  /\ (forall hintUsed,
         calculateNewScoreState sc combo false hintUsed = (sc - 50, 0)).
Proof.
  split; [|split; [|split]].
  - intros [] []; unfold applyOutcome_spec; simpl; f_equal; lia.
  - simpl. f_equal. lia.
  - reflexivity.
  - intros []; reflexivity.
Qed.

(** The incorrect branch really goes below zero. *)
Example calculateNewScoreState_negative :
  calculateNewScoreState 20 3 false false = (-30, 0).
Proof. reflexivity. Qed.

(** ** The opponent *)

Lemma executeAIAnswer_answers (s : GameState) (g : rng) :
  executeAIAnswer s false g
  = (let '(cs, cc) :=
       calculateNewScoreState (computerScore s)
         (computerConsecutiveCorrect s)
         (Qltb (g O) (accuracy (AI_CONFIG (difficulty s)))) false in
     set_computerConsecutiveCorrect cc (set_computerScore cs s),
     true, fun n => g (S n)).
Proof.
  unfold executeAIAnswer, random.
  destruct (calculateNewScoreState _ _ _ _); reflexivity.
Qed.

Lemma executeAIAnswer_once (s : GameState) (g : rng) :
  executeAIAnswer s true g = (s, true, g).
Proof. reflexivity. Qed.

Lemma timerEffect_timeout (a : App) (g : rng) :
  status (gameState a) = playing ->
  isAnswerRevealed (gameState a) = false ->
  isPaused (gameState a) = false ->
  isExitConfirmOpen (gameState a) = false ->
  timeLeft (gameState a) <= 0 ->
  timerEffect a g
  = (let '(s', answered', g') :=
       timeoutUpdate (gameState a) (aiAnsweredRef a) g in
     (setTimeout CallHandleNext 1500
        (setAiAnswered answered' (setGameState (fun _ => s') a)), g')).
Proof.
  intros Hst Hrev Hp Hex Ht. unfold timerEffect.
  rewrite Hst, Hrev, Hp, Hex. simpl.
  destruct (Z.leb_spec (timeLeft (gameState a)) 0); [reflexivity | lia].
Qed.

(** C9. The forced-timeout resolution treats the player as the incorrect
    branch of the scoring engine does: 50 points less, streak at 0, answer
    revealed; and this is the update the timer effect performs on a playing
    state whose time is up. *)
Theorem timeout_is_incorrect_branch (a : App) (g : rng) :
  let gs := gameState a in
  let s' := (timeoutUpdate gs (aiAnsweredRef a) g).1.1 in
  (score s', consecutiveCorrect s')
  = calculateNewScoreState (score gs) (consecutiveCorrect gs) false
      (isHintActive gs)
  /\ score s' = score gs - 50
  /\ consecutiveCorrect s' = 0
  /\ isAnswerRevealed s' = true
  /\ (status gs = playing -> timeLeft gs = 0 ->
      isAnswerRevealed gs = false -> isPaused gs = false ->
      isExitConfirmOpen gs = false ->
      gameState (timerEffect a g).1 = s').
Proof.
  intros gs s'. subst s'.
  assert (Hs : forall x : GameState * bool * rng,
             let s := set_isAnswerRevealed true
                        (set_score (score gs - 50)
                           (set_consecutiveCorrect 0 x.1.1)) in
             score s = score gs - 50 /\ consecutiveCorrect s = 0
             /\ isAnswerRevealed s = true) by (intros x; simpl; auto).
  assert (Hu : (timeoutUpdate gs (aiAnsweredRef a) g).1.1
               = set_isAnswerRevealed true
                   (set_score (score gs - 50)
                      (set_consecutiveCorrect 0
                         (match gameMode gs with
                          | pve => executeAIAnswer gs (aiAnsweredRef a) g
                          | single => (gs, aiAnsweredRef a, g)
                          end).1.1))).
  { unfold timeoutUpdate.
    destruct (match gameMode gs with
              | pve => executeAIAnswer gs (aiAnsweredRef a) g
              | single => (gs, aiAnsweredRef a, g)
              end) as [[n b] g']. reflexivity. }
  rewrite Hu. destruct (Hs (match gameMode gs with
                            | pve => executeAIAnswer gs (aiAnsweredRef a) g
                            | single => (gs, aiAnsweredRef a, g)
                            end)) as (H1 & H2 & H3).
  split; [simpl; f_equal; apply H1 || apply H2 |].
  split; [exact H1 |]. split; [exact H2 |]. split; [exact H3 |].
  intros Hst Ht Hrev Hp Hex.
  rewrite timerEffect_timeout by (auto; fold gs; lia).
  rewrite <- Hu. fold gs.
  destruct (timeoutUpdate gs (aiAnsweredRef a) g) as [[n b] g'].
  reflexivity.
Qed.

Lemma timeout_is_incorrect_branch_witness :
  let a' := (timerEffect sampleApp (constRng 0)).1 in
  score (gameState a') = 200 /\ consecutiveCorrect (gameState a') = 0.
Proof.
  destruct (timeout_is_incorrect_branch sampleApp (constRng 0))
    as (_ & H1 & H2 & _ & H).
  cbv zeta. rewrite H by reflexivity. split; [exact H1 | exact H2].
Defined.

(** C2, as the code has it.  When the time of a pve question is up and the
    opponent has not answered, the timer effect makes the opponent answer
    through [executeAIAnswer]: correctness is drawn against the accuracy of
    the difficulty and the same scoring function is applied without hint.
    The opponent loses 50 points and the streak only when the draw is not
    below the accuracy; otherwise it scores as for a correct answer. *)
Theorem timeout_forces_opponent_answer (a : App) (g : rng) :
  let gs := gameState a in
  status gs = playing -> gameMode gs = pve ->
  isAnswerRevealed gs = false -> isPaused gs = false ->
  isExitConfirmOpen gs = false -> timeLeft gs <= 0 ->
  aiAnsweredRef a = false ->
  let a' := (timerEffect a g).1 in
  let isCorrect := Qltb (g O) (accuracy (AI_CONFIG (difficulty gs))) in
  aiAnsweredRef a' = true
  /\ (computerScore (gameState a'),
      computerConsecutiveCorrect (gameState a'))
     = calculateNewScoreState (computerScore gs)
         (computerConsecutiveCorrect gs) isCorrect false
  /\ (isCorrect = false ->
      computerScore (gameState a') = computerScore gs - 50
      /\ computerConsecutiveCorrect (gameState a') = 0)
  /\ (isCorrect = true ->
      computerScore (gameState a')
      = computerScore gs + 100 + 25 * computerConsecutiveCorrect gs
      /\ computerConsecutiveCorrect (gameState a')
         = computerConsecutiveCorrect gs + 1).
Proof.
  intros gs Hst Hm Hrev Hp Hex Ht Hai a' isCorrect. subst a'.
  rewrite timerEffect_timeout by assumption.
  unfold timeoutUpdate. fold gs. rewrite Hm, Hai, executeAIAnswer_answers.
  fold isCorrect. destruct isCorrect; simpl.
  - split; [reflexivity |]. split; [reflexivity |].
    split; [discriminate |]. intros _. split; lia.
  - split; [reflexivity |]. split; [reflexivity |].
    split; [auto | discriminate].
Qed.

Lemma timeout_forces_opponent_answer_witness :
  let a' := (timerEffect sampleApp (constRng (9 # 10))).1 in
  computerScore (gameState a') = -50
  /\ computerConsecutiveCorrect (gameState a') = 0.
Proof.
  refine (proj1 (proj2 (proj2
            (timeout_forces_opponent_answer sampleApp (constRng (9 # 10))
               _ _ _ _ _ _ _))) _);
    reflexivity.
Defined.

(** C2 as stated fails: the time of the question is up, the trigger
    (half a second before the end) has not fired at any whole second, the
    opponent has not answered, and the forced answer is a correct one. *)
Lemma timeout_opponent_may_score :
  let a := sampleApp in
  let g := constRng 0 in
  rng_ok g
  /\ status (gameState a) = playing /\ gameMode (gameState a) = pve
  /\ timeLeft (gameState a) = 0 /\ aiAnsweredRef a = false
  /\ (forall t : Z, 1 <= t -> ~ (inject_Z t <= aiTriggerTimeRef a)%Q)
  /\ computerScore (gameState (timerEffect a g).1) = 100
  /\ computerConsecutiveCorrect (gameState (timerEffect a g).1) = 1
  /\ ~ (computerScore (gameState (timerEffect a g).1)
        = computerScore (gameState a) - 50
        /\ computerConsecutiveCorrect (gameState (timerEffect a g).1) = 0).
Proof.
  simpl. split; [intros n; split; unfold constRng; [apply Qle_refl | reflexivity] |].
  do 4 (split; [reflexivity |]).
  split.
  { intros t Ht. unfold Qle. simpl. lia. }
  split; [reflexivity |]. split; [reflexivity |].
  intros [H _]. vm_compute in H. discriminate.
Qed.

(** ** Exit and stale advances *)

(** C3 as stated fails: confirming the exit of a game in progress leaves
    score, streak and question index as they were. *)
Lemma confirm_exit_keeps_progress :
  let a := handleExitRequest sampleApp in
  let a' := handleConfirmExit a in
  status (gameState a) = playing
  /\ isExitConfirmOpen (gameState a) = true
  /\ score (gameState a') = 250
  /\ consecutiveCorrect (gameState a') = 2
  /\ currentQuestionIndex (gameState a') = 3
  /\ timeLeft (gameState a') = 0
  /\ gameState a' <> initialGameState.
Proof.
  simpl. do 6 (split; [reflexivity |]). discriminate.
Qed.

(** C3, as the code has it.  Confirming the exit sets the status to
    [start], closes the confirmation and empties the question list; every
    other field of the session keeps its value, and so do the player name
    and the saved flag.  The session equals the fresh one exactly when those
    fields were already at their initial values.  The fields are reset when
    the next game starts. *)
Theorem handleConfirmExit_effect (a : App) :
  let gs := gameState a in
  let a' := handleConfirmExit a in
  let gs' := gameState a' in
  status gs' = start /\ isExitConfirmOpen gs' = false
  /\ activeQuestions a' = []
  /\ gameMode gs' = gameMode gs /\ difficulty gs' = difficulty gs
  /\ score gs' = score gs /\ computerScore gs' = computerScore gs
  /\ consecutiveCorrect gs' = consecutiveCorrect gs
  /\ computerConsecutiveCorrect gs' = computerConsecutiveCorrect gs
  /\ currentQuestionIndex gs' = currentQuestionIndex gs
  /\ totalQuestions gs' = totalQuestions gs
  /\ timeLeft gs' = timeLeft gs
  /\ selectedOptionId gs' = selectedOptionId gs
  /\ isAnswerRevealed gs' = isAnswerRevealed gs
  /\ isPaused gs' = isPaused gs /\ isHintActive gs' = isHintActive gs
  /\ playerName a' = playerName a /\ isScoreSaved a' = isScoreSaved a
  /\ (gs' = initialGameState <->
      set_isExitConfirmOpen false (set_status start gs) = initialGameState)
  /\ (forall QUIZ_DATA mode diff g,
         let n := gameState (startPlaying QUIZ_DATA mode diff a' g).1 in
         status n = playing /\ score n = 0 /\ computerScore n = 0
         /\ consecutiveCorrect n = 0 /\ computerConsecutiveCorrect n = 0
         /\ currentQuestionIndex n = 0
         /\ timeLeft n = GAME_DURATION_SECONDS
         /\ selectedOptionId n = None /\ isAnswerRevealed n = false
         /\ isPaused n = false /\ isHintActive n = false
         /\ isExitConfirmOpen n = false).
Proof.
  simpl. do 18 (split; [reflexivity |]). split; [reflexivity |].
  intros Q mode diff g. unfold startPlaying.
  destruct (getWeightedQuestions Q g). simpl. tauto.
Qed.

(** C4 as stated fails, after an exit and after a restart: the advance
    scheduled by an answer is still pending once the exit is confirmed, and
    when it fires it moves the question index of the reset session. *)
Lemma stale_advance_changes_state :
  let a0 := setGameState (set_timeLeft 4) sampleApp in
  let a1 := (handleSelectOption (js "B") a0 (constRng 0)).1 in
  let a2 := handleConfirmExit (handleExitRequest a1) in
  let a3 := handleRestartGame a1 in
  timeouts a2 = [(1500, CallHandleNext)]
  /\ status (gameState a2) = start
  /\ currentQuestionIndex (gameState a2) = 3
  /\ currentQuestionIndex (gameState (runCallback CallHandleNext a2)) = 4
  /\ runCallback CallHandleNext a2 <> a2
  /\ timeouts a3 = [(1500, CallHandleNext)]
  /\ gameState a3 = initialGameState
  /\ currentQuestionIndex (gameState (runCallback CallHandleNext a3)) = 1
  /\ runCallback CallHandleNext a3 <> a3.
Proof.
  simpl. do 4 (split; [reflexivity |]). split; [discriminate |].
  do 3 (split; [reflexivity |]). discriminate.
Qed.

Lemma set_status_id (v : GameStatus) (s : GameState) :
  set_status v s = s <-> status s = v.
Proof.
  destruct s; unfold set_status; simpl. split.
  - intros H. injection H. auto.
  - intros ->. reflexivity.
Qed.

(** C4, as the code has it.  [handleNext] checks neither the status nor the
    question index at schedule time: a pending advance acts on whatever the
    session is when it fires.  It finishes the game when the next index
    reaches the total, otherwise it moves to the next index and keeps the
    status; it leaves the session unchanged only when the status is already
    [finished] and no question is left. *)
Theorem handleNext_unguarded (a : App) :
  let gs := gameState a in
  let gs' := gameState (handleNext a) in
  (handleNext a = a <->
   status gs = finished /\ totalQuestions gs <= currentQuestionIndex gs + 1)
  /\ (totalQuestions gs <= currentQuestionIndex gs + 1 ->
      gs' = set_status finished gs)
  /\ (currentQuestionIndex gs + 1 < totalQuestions gs ->
      status gs' = status gs
      /\ currentQuestionIndex gs' = currentQuestionIndex gs + 1
      /\ timeLeft gs' = GAME_DURATION_SECONDS
      /\ selectedOptionId gs' = None /\ isAnswerRevealed gs' = false
      /\ isPaused gs' = false /\ isHintActive gs' = false).
Proof.
  destruct a as [gs qs pn sv ai tr ls ts]. simpl. unfold nextState.
  destruct (Z.leb_spec (totalQuestions gs) (currentQuestionIndex gs + 1))
    as [Hle | Hlt].
  - split; [| split; [reflexivity | lia]].
    unfold handleNext, setGameState, nextState. simpl.
    destruct (Z.leb_spec (totalQuestions gs) (currentQuestionIndex gs + 1));
      [| lia].
    rewrite <- (set_status_id finished gs). split.
    + intros E. injection E as E. split; [exact E | lia].
    + intros [E _]. rewrite E. reflexivity.
  - split; [| split; [lia | simpl; tauto]].
    unfold handleNext, setGameState, nextState. simpl.
    destruct (Z.leb_spec (totalQuestions gs) (currentQuestionIndex gs + 1));
      [lia |].
    split; [| lia].
    intros E. injection E as E.
    apply (f_equal currentQuestionIndex) in E. simpl in E. lia.
Qed.

Lemma handleNext_unguarded_witness :
  let a := handleRestartGame sampleApp in
  status (gameState (handleNext a)) = start
  /\ currentQuestionIndex (gameState (handleNext a)) = 1.
Proof.
  destruct (proj2 (proj2 (handleNext_unguarded (handleRestartGame sampleApp))))
    as (H1 & H2 & _).
  - reflexivity.
  - split; [exact H1 | exact H2].
Defined.

(** ** Missing question data *)

(** The timer effect does not look at the question list. *)
Lemma timerEffect_ignores_questions (qs : list Question) (a : App) (g : rng) :
  timerEffect (setActiveQuestions qs a) g
  = (setActiveQuestions qs (timerEffect a g).1, (timerEffect a g).2).
Proof.
  destruct a as [gs qs0 pn sv ai tr ls ts].
  unfold timerEffect, setActiveQuestions. simpl.
  destruct (negb (bool_decide (status gs = playing))); [reflexivity |].
  destruct (isAnswerRevealed gs || isPaused gs || isExitConfirmOpen gs);
    [reflexivity |].
  destruct (timeLeft gs <=? 0).
  - destruct (timeoutUpdate gs ai g) as [[s' b] g']. reflexivity.
  - destruct (bool_decide (gameMode gs = pve) && negb ai
              && Qle_bool (inject_Z (timeLeft gs)) tr); [| reflexivity].
    destruct (executeAIAnswer gs ai g) as [[s' b] g']. reflexivity.
Qed.

(** C5 as stated fails.  With a question list that does not reach the
    current index the render shows the first question of the list instead
    of nothing; with an empty list the render is blank, but the timer still
    resolves the timeout and schedules the advance, which moves the index. *)
Lemma missing_question_substituted :
  let a := setGameState (set_currentQuestionIndex 6) sampleApp in
  let b := setActiveQuestions [] sampleApp in
  status (gameState a) = playing
  /\ lookupZ (activeQuestions a) (currentQuestionIndex (gameState a)) = None
  /\ render a = PlayingScreen (sampleQuestion 1 "Japan" (Some EastAsia))
  /\ render a <> Blank
  /\ render b = Blank
  /\ timeouts (timerEffect b (constRng 0)).1 = [(1500, CallHandleNext)]
  /\ currentQuestionIndex
       (gameState (runCallback CallHandleNext (timerEffect b (constRng 0)).1))
     = 4.
Proof.
  simpl. do 3 (split; [reflexivity |]). split; [discriminate |].
  do 2 (split; [reflexivity |]). reflexivity.
Qed.

(** C5, as the code has it.  While playing, when the current index has no
    question, the render falls back to the first question of the list and
    is blank exactly when the list is empty; selecting an option changes
    nothing and schedules nothing; the timer effect runs as with any other
    question list. *)
Theorem missing_question_fallback (a : App) (g : rng) (id : jsstring) :
  status (gameState a) = playing ->
  lookupZ (activeQuestions a) (currentQuestionIndex (gameState a)) = None ->
  render a = match activeQuestions a with
             | [] => Blank
             | q0 :: _ => PlayingScreen q0
             end
  /\ (render a = Blank <-> activeQuestions a = [])
  /\ handleSelectOption id a g = (a, g)
  /\ (forall qs,
         gameState (timerEffect (setActiveQuestions qs a) g).1
         = gameState (timerEffect a g).1).
Proof.
  intros Hst Hnone.
  assert (Hr : render a = match activeQuestions a with
                          | [] => Blank
                          | q0 :: _ => PlayingScreen q0
                          end).
  { unfold render, currentQuestionData. rewrite Hst, Hnone.
    unfold lookupZ. simpl. destruct (activeQuestions a); reflexivity. }
  split; [exact Hr |]. split.
  - rewrite Hr. destruct (activeQuestions a); split; congruence.
  - split.
    + unfold handleSelectOption. rewrite Hnone.
      destruct (_ || _); reflexivity.
    + intros qs. rewrite timerEffect_ignores_questions. reflexivity.
Qed.

Lemma missing_question_fallback_witness :
  let a := setGameState (set_currentQuestionIndex 6) sampleApp in
  render a = PlayingScreen (sampleQuestion 1 "Japan" (Some EastAsia))
  /\ handleSelectOption (js "B") a (constRng 0) = (a, constRng 0).
Proof.
  destruct (missing_question_fallback
              (setGameState (set_currentQuestionIndex 6) sampleApp)
              (constRng 0) (js "B")) as (H1 & _ & H2 & _).
  - reflexivity.
  - reflexivity.
  - split; [exact H1 | exact H2].
Defined.

(** ** Leaderboard: submitting a score *)

Lemma trimStart_blank (s : jsstring) : blankName s -> trimStart s = [].
Proof.
  induction 1 as [| c s Hc _ IH]; simpl; [reflexivity |].
  rewrite Hc. exact IH.
Qed.

Lemma trim_blank (s : jsstring) : blankName s -> trim s = [].
Proof.
  intros H. unfold trim. rewrite (trimStart_blank s H). reflexivity.
Qed.

(** C10. With an empty or white-space-only name [handleSaveScore] returns
    at once: no entry, nothing persisted, no state changed, nothing
    scheduled. *)
Theorem handleSaveScore_blank_name (now : Z) (a : App) :
  blankName (playerName a) -> handleSaveScore now a = a.
Proof.
  intros H. unfold handleSaveScore. rewrite (trim_blank _ H). reflexivity.
Qed.

Lemma handleSaveScore_blank_name_witness :
  handleSaveScore 1700000000000 (setPlayerName (js "   ") sampleApp)
  = setPlayerName (js "   ") sampleApp.
Proof.
  apply handleSaveScore_blank_name.
  simpl. repeat constructor.
Defined.

Lemma trimStart_nil_blank (s : jsstring) : trimStart s = [] -> blankName s.
Proof.
  induction s as [| c s IH]; simpl; [intros _; constructor |].
  destruct (isTrimmable c) eqn:Hc; [| discriminate].
  intros H. constructor; [exact Hc | exact (IH H)].
Qed.

Lemma trimStart_blank_inv (s : jsstring) :
  blankName (trimStart s) -> blankName s.
Proof.
  induction s as [| c s IH]; simpl; [auto |].
  destruct (isTrimmable c) eqn:Hc; [| auto].
  intros H. constructor; [exact Hc | exact (IH H)].
Qed.

Lemma trim_nil_iff (s : jsstring) : trim s = [] <-> blankName s.
Proof.
  split; [| apply trim_blank].
  unfold trim, trimEnd. intros H.
  apply trimStart_blank_inv.
  apply (f_equal reverse) in H. rewrite reverse_involutive in H.
  change (reverse (@nil N)) with (@nil N) in H.
  apply trimStart_nil_blank in H.
  unfold blankName in *. rewrite Forall_reverse in H. exact H.
Qed.

Section Sorting.
Context {A : Type} (cmp : A -> A -> Z).

Lemma sortInsert_perm (a : A) (l : list A) : sortInsert cmp a l ≡ₚ a :: l.
Proof.
  induction l as [| b l IH]; simpl; [reflexivity |].
  destruct (0 <? cmp a b); [| reflexivity].
  rewrite IH. apply Permutation_swap.
Qed.

Lemma sortBy_perm (l : list A) : sortBy cmp l ≡ₚ l.
Proof.
  induction l as [| a l IH]; simpl; [reflexivity |].
  rewrite sortInsert_perm, IH. reflexivity.
Qed.

Lemma sortBy_length (l : list A) : length (sortBy cmp l) = length l.
Proof. apply Permutation_length, sortBy_perm. Qed.
End Sorting.

Lemma sortInsert_sortedDesc (a : LeaderboardEntry) (l : list LeaderboardEntry) :
  sortedDesc l -> sortedDesc (sortInsert byScoreDesc a l).
Proof.
  unfold sortedDesc. induction 1 as [| b l Hs IH Hb]; simpl.
  - repeat constructor.
  - unfold byScoreDesc at 1.
    destruct (Z.ltb_spec 0 (e_score b - e_score a)) as [Hlt | Hge].
    + constructor; [exact IH |].
      rewrite sortInsert_perm. constructor; [lia | exact Hb].
    + constructor; [constructor; assumption |].
      constructor; [lia |].
      eapply Forall_impl; [exact Hb |]. simpl. intros x Hx. lia.
Qed.

Lemma sortBy_sortedDesc (l : list LeaderboardEntry) :
  sortedDesc (sortBy byScoreDesc l).
Proof.
  induction l as [| a l IH]; simpl.
  - constructor.
  - apply sortInsert_sortedDesc, IH.
Qed.

Lemma sortedDesc_take (n : nat) (l : list LeaderboardEntry) :
  sortedDesc l -> sortedDesc (take n l).
Proof.
  unfold sortedDesc. intros H. rewrite <- (take_drop n l) in H.
  apply StronglySorted_app_1_l in H. exact H.
Qed.

(** C7 as stated fails for a blank name: nothing is appended or saved. *)
Lemma blank_name_not_submitted :
  let a := setPlayerName (js "  ") sampleApp in
  let a' := handleSaveScore 1700000000000 a in
  getLeaderboard (localStorage a') = []
  /\ quiz_leaderboard (localStorage a') = Missing
  /\ isScoreSaved a' = false.
Proof. simpl. auto. Qed.

(** C7, for a name that is not blank.  Whatever the store held before,
    [handleSaveScore] builds an entry whose name is the trimmed name cut to
    10 code units, with the player's score and the current time; adds it to
    the stored entries; and saves the first 10 of these entries in
    descending order of score.  The saved list is sorted descending by score
    and has at most 10 entries. *)
Theorem handleSaveScore_submits (now : Z) (a : App) :
  ~ blankName (playerName a) ->
  let prior := getLeaderboard (localStorage a) in
  let newEntry :=
    {| e_name := take 10 (trim (playerName a));
       e_score := score (gameState a);
       e_timestamp := now |} in
  let a' := handleSaveScore now a in
  (length (e_name newEntry) <= 10)%nat
  /\ exists sorted persisted,
       sorted ≡ₚ prior ++ [newEntry]
       /\ sortedDesc sorted
       /\ persisted = take MAX_LEADERBOARD_ENTRIES sorted
       /\ quiz_leaderboard (localStorage a') = Holds persisted
       /\ getLeaderboard (localStorage a') = persisted
       /\ sortedDesc persisted
       /\ (length persisted <= 10)%nat
       /\ isScoreSaved a' = true.
Proof.
  intros Hname prior newEntry a'.
  split; [simpl; rewrite length_take; lia |].
  exists (sortBy byScoreDesc (prior ++ [newEntry])).
  exists (take MAX_LEADERBOARD_ENTRIES
            (sortBy byScoreDesc (prior ++ [newEntry]))).
  assert (Ha : a' = setTimeout ShowLeaderboard 500
                      (setIsScoreSaved true
                         (setLocalStorage
                            (saveLeaderboard
                               (take MAX_LEADERBOARD_ENTRIES
                                  (sortBy byScoreDesc (prior ++ [newEntry])))
                               (localStorage a)) a))).
  { subst a'. unfold handleSaveScore.
    destruct (trim (playerName a)) eqn:Ht; [| reflexivity].
    exfalso. apply Hname, trim_nil_iff, Ht. }
  rewrite Ha. simpl.
  split; [apply sortBy_perm |].
  split; [apply sortBy_sortedDesc |].
  split; [reflexivity |]. split; [reflexivity |]. split; [reflexivity |].
  split; [apply sortedDesc_take, sortBy_sortedDesc |].
  split; [rewrite length_take; unfold MAX_LEADERBOARD_ENTRIES; lia |].
  reflexivity.
Qed.

Lemma handleSaveScore_submits_witness :
  let a := setPlayerName (js "  Alice Wonderland ") sampleApp in
  let a' := handleSaveScore 1700000000000 a in
  exists sorted persisted,
    sorted ≡ₚ [] ++ [mkEntry (js "Alice Wond") 250 1700000000000]
    /\ sortedDesc sorted
    /\ persisted = take MAX_LEADERBOARD_ENTRIES sorted
    /\ quiz_leaderboard (localStorage a') = Holds persisted
    /\ getLeaderboard (localStorage a') = persisted
    /\ sortedDesc persisted
    /\ (length persisted <= 10)%nat
    /\ isScoreSaved a' = true.
Proof.
  refine (proj2 (handleSaveScore_submits 1700000000000
                   (setPlayerName (js "  Alice Wonderland ") sampleApp) _)).
  intros H. apply trim_nil_iff in H. discriminate H.
Defined.

(** ** Leaderboard: weekly reset *)

Lemma Day_bounds (l : Z) :
  Day l * msPerDay <= l < (Day l + 1) * msPerDay.
Proof.
  unfold Day.
  pose proof (Z.div_mod l msPerDay).
  pose proof (Z.mod_pos_bound l msPerDay).
  unfold msPerDay in *. lia.
Qed.


Lemma Day_back (l k : Z) : Day (l - k * msPerDay) = Day l - k.
Proof.
  unfold Day. replace (l - k * msPerDay) with (l + - k * msPerDay) by lia.
  rewrite Z.div_add by (unfold msPerDay; lia). lia.
Qed.




Lemma daysSinceMonday_eq (l : Z) :
  daysSinceMonday l = (WeekDay l + 6) mod 7.
Proof.
  unfold daysSinceMonday.
  pose proof (Z.div_mod (WeekDay l - 1) 7).
  pose proof (Z.mod_pos_bound (WeekDay l - 1) 7).
  pose proof (Z.div_mod (WeekDay l + 6) 7).
  pose proof (Z.mod_pos_bound (WeekDay l + 6) 7).
  lia.
Qed.

(** Where the wall-clock time keeps its date, the boundary computed by
    [checkWeeklyReset] is Monday 00:00 of the local week, as an instant. *)
Lemma lastMondayOf_eq (z : TimeZone) (now : Z) :
  wallClockStable z now ->
  lastMondayOf z now
  = UTC z ((Day (LocalTime z now) - (getDay z now + 6) mod 7) * msPerDay).
Proof.
  unfold wallClockStable. cbv zeta. rewrite daysSinceMonday_eq, Day_back.
  intros Hw. unfold lastMondayOf, setHoursZero, setDateBack.
  fold (getDay z now) in Hw. rewrite Hw. reflexivity.
Qed.



(** A zone whose clock never changes keeps every wall-clock time on its
    date. *)
Lemma fixedOffset_wallClockStable (tz now : Z) :
  wallClockStable (fixedOffset tz) now.
Proof.
  unfold wallClockStable, LocalTime, UTC. simpl. f_equal. lia.
Qed.


(** Wednesday 15 November 2023, 06:13:20 at UTC+8; the boundary is Monday
    13 November 00:00 at UTC+8. *)
Example lastMondayOf_sample :
  lastMondayOf (fixedOffset 28800000) 1700000000000 = 1699804800000.
Proof. reflexivity. Qed.

(** Sunday 10 March 2024, 12:00 in New York, after the clocks went forward;
    the boundary is Monday 4 March 00:00 at UTC-5. *)
Example lastMondayOf_newYork :
  lastMondayOf newYork2024 1710086400000 = 1709528400000.
Proof. reflexivity. Qed.



(** ** Question selector *)

(** With draws in [0, 1) the index chosen by the shuffle is inside the part
    of the array still to be shuffled, so [swap] never leaves the array. *)
Lemma random_index_in_range (r : Q) (i : nat) :
  (0 <= r)%Q -> (r < 1)%Q -> (randomIndex r i <= i)%nat.
Proof.
  intros H0 H1. unfold randomIndex.
  set (n := Z.of_nat i + 1).
  assert (Hn : (0 < inject_Z n)%Q).
  { unfold Qlt. simpl. lia. }
  pose proof (Qmult_lt_compat_r r 1 (inject_Z n) Hn H1) as Hlt.
  rewrite Qmult_1_l in Hlt.
  pose proof (Qfloor_le (r * inject_Z n)) as Hfl.
  assert (Hz : (inject_Z (Qfloor (r * inject_Z n)) < inject_Z n)%Q)
    by (eapply Qle_lt_trans; eassumption).
  rewrite <- Zlt_Qlt in Hz. lia.
Qed.

Section Shuffle.
Context {A : Type}.
Implicit Types l : list A.

Lemma swap_length (i j : nat) l : length (swap i j l) = length l.
Proof.
  unfold swap. destruct (l !! i), (l !! j); try reflexivity.
  rewrite !length_insert. reflexivity.
Qed.

Lemma swap_lookup (i j k : nat) l :
  is_Some (l !! i) -> is_Some (l !! j) ->
  swap i j l !! k
  = l !! (if decide (k = i) then j else if decide (k = j) then i else k).
Proof.
  intros [x Hi] [y Hj]. unfold swap. rewrite Hi, Hj.
  pose proof (lookup_lt_Some _ _ _ Hi) as Hli.
  pose proof (lookup_lt_Some _ _ _ Hj) as Hlj.
  destruct (decide (k = j)) as [-> | Hkj].
  - rewrite list_lookup_insert_eq by (rewrite length_insert; exact Hlj).
    destruct (decide (j = i)) as [-> | _]; congruence.
  - rewrite list_lookup_insert_ne by congruence.
    destruct (decide (k = i)) as [-> | Hki].
    + rewrite list_lookup_insert_eq by exact Hli. congruence.
    + rewrite list_lookup_insert_ne by congruence. reflexivity.
Qed.

Lemma swap_perm (i j : nat) l : swap i j l ≡ₚ l.
Proof.
  destruct (l !! i) as [x |] eqn:Hi; [| unfold swap; rewrite Hi; reflexivity].
  destruct (l !! j) as [y |] eqn:Hj;
    [| unfold swap; rewrite Hi, Hj; reflexivity].
  apply Permutation_inj. split; [apply swap_length |].
  exists (fun k => if decide (k = i) then j
                   else if decide (k = j) then i else k).
  split.
  - intros a b. repeat case_decide; congruence.
  - intros k. apply swap_lookup; eauto.
Qed.

Lemma shuffle_from_perm (i : nat) l (g : rng) : (shuffle_from i l g).1 ≡ₚ l.
Proof.
  revert l g. induction i as [| i IH]; intros l g; simpl; [reflexivity |].
  rewrite IH. apply swap_perm.
Qed.

Lemma shuffle_perm l (g : rng) : (shuffle l g).1 ≡ₚ l.
Proof. apply shuffle_from_perm. Qed.
End Shuffle.

Lemma selectLoop_ok (limit : Z) (qs : list Question) sel :
  selectionOK sel -> selectionOK (selectLoop limit qs sel).
Proof.
  revert sel. induction qs as [| q rest IH]; intros [sq sc] Hok; simpl;
    [exact Hok |].
  destruct (limit <=? Z.of_nat (length sq)); [exact Hok |].
  case_bool_decide as Hin; [apply IH, Hok |].
  apply IH. destruct Hok as [Hnd Hsub]. simpl in *. split; simpl.
  - rewrite fmap_app. apply NoDup_app. split; [exact Hnd |].
    split; [| apply NoDup_singleton].
    intros c Hc Hc'. apply list_elem_of_singleton in Hc'. subst c.
    apply list_elem_of_fmap in Hc as (q' & Heq & Hq').
    apply Hin. rewrite Heq. apply Hsub, Hq'.
  - intros q' Hq'. apply elem_of_app in Hq' as [Hq' | Hq'].
    + apply elem_of_union_l, Hsub, Hq'.
    + apply list_elem_of_singleton in Hq'. subst q'.
      apply elem_of_union_r, elem_of_singleton. reflexivity.
Qed.

Lemma selectLoop_length (limit : Z) (qs : list Question) sel :
  Z.of_nat (length (selectLoop limit qs sel).1)
  <= Z.max limit (Z.of_nat (length sel.1)).
Proof.
  revert sel. induction qs as [| q rest IH]; intros [sq sc]; simpl; [lia |].
  destruct (Z.leb_spec limit (Z.of_nat (length sq))) as [Hle | Hlt];
    [simpl; lia |].
  case_bool_decide; [apply (IH (sq, sc)) |].
  etransitivity; [apply IH |]. simpl. rewrite length_app. simpl. lia.
Qed.

Lemma selectLoop_extends (limit : Z) (qs : list Question) sel :
  exists extra,
    (selectLoop limit qs sel).1 = sel.1 ++ extra
    /\ forall q, q ∈ extra -> q ∈ qs.
Proof.
  revert sel. induction qs as [| q rest IH]; intros [sq sc]; simpl.
  - exists []. split; [symmetry; apply app_nil_r | intros q Hq; exact Hq].
  - destruct (limit <=? Z.of_nat (length sq)).
    + exists []. split; [symmetry; apply app_nil_r |].
      intros q' Hq'. inversion Hq'.
    + case_bool_decide.
      * destruct (IH (sq, sc)) as (extra & He & Hsub).
        exists extra. split; [exact He |].
        intros q' Hq'. right. apply Hsub, Hq'.
      * destruct (IH (sq ++ [q], sc ∪ {[country q]}))
          as (extra & He & Hsub).
        exists (q :: extra). split.
        -- rewrite He. simpl. rewrite <- app_assoc. reflexivity.
        -- intros q' Hq'. inversion Hq'; subst; [left | right; auto].
Qed.

Lemma filter_none {A} (P : A -> Prop) `{forall x, Decision (P x)}
    (l : list A) :
  (forall x, x ∈ l -> ~ P x) -> filter P l = [].
Proof.
  induction l as [| x l IH]; intros Hl; [reflexivity |].
  rewrite filter_cons. destruct (decide (P x)) as [Hp | _].
  - exfalso. apply (Hl x); [left | exact Hp].
  - apply IH. intros y Hy. apply Hl. right. exact Hy.
Qed.

(** C6. For every question bank and every random source, the sequence
    returned by [getWeightedQuestions] has at most 20 questions, no two of
    them of the same country, at most 10 of them from the 'EastAsia' subset
    (however many of those the bank has, so also when it has 10 or more),
    and all of them taken from the bank. *)
Theorem getWeightedQuestions_selection (allQuestions : list Question)
    (g : rng) :
  let out := (getWeightedQuestions allQuestions g).1 in
  Z.of_nat (length out) <= QUESTIONS_PER_GAME
  /\ NoDup (country <$> out)
  /\ Z.of_nat (length (eastAsiaOf out)) <= targetEastAsiaCount
  /\ (forall q, q ∈ out -> q ∈ allQuestions).
Proof.
  cbv zeta. unfold getWeightedQuestions.
  set (eastAsia := filter (fun q => region q = Some EastAsia) allQuestions).
  set (others := filter (fun q => region q <> Some EastAsia) allQuestions).
  pose proof (shuffle_perm eastAsia g) as Hp1.
  destruct (shuffle eastAsia g) as [shuffledEastAsia g1]. simpl in Hp1.
  pose proof (shuffle_perm others g1) as Hp2.
  destruct (shuffle others g1) as [shuffledOthers g2]. simpl in Hp2.
  set (sel1 := selectLoop targetEastAsiaCount shuffledEastAsia ([], ∅)).
  set (sel2 := selectLoop QUESTIONS_PER_GAME shuffledOthers sel1).
  pose proof (shuffle_perm sel2.1 g2) as Hp3.
  assert (Hok1 : selectionOK sel1).
  { apply selectLoop_ok. split; simpl; [constructor | intros q Hq].
    inversion Hq. }
  assert (Hok2 : selectionOK sel2) by apply selectLoop_ok, Hok1.
  pose proof (selectLoop_length targetEastAsiaCount shuffledEastAsia ([], ∅))
    as Hl1. fold sel1 in Hl1. simpl in Hl1.
  pose proof (selectLoop_length QUESTIONS_PER_GAME shuffledOthers sel1)
    as Hl2. fold sel2 in Hl2.
  destruct (selectLoop_extends targetEastAsiaCount shuffledEastAsia ([], ∅))
    as (extra1 & He1 & Hsub1). fold sel1 in He1. simpl in He1.
  destruct (selectLoop_extends QUESTIONS_PER_GAME shuffledOthers sel1)
    as (extra2 & He2 & Hsub2). fold sel2 in He2.
  split; [| split; [| split]].
  - rewrite (Permutation_length Hp3).
    unfold targetEastAsiaCount, QUESTIONS_PER_GAME in *. lia.
  - rewrite Hp3. apply Hok2.
  - unfold eastAsiaOf. rewrite Hp3, He2, filter_app.
    rewrite (filter_none _ extra2).
    + rewrite app_nil_r.
      pose proof (length_filter (fun q => region q = Some EastAsia) sel1.1).
      unfold targetEastAsiaCount in *. lia.
    + intros q Hq Hr. apply Hsub2 in Hq. rewrite Hp2 in Hq.
      apply list_elem_of_filter in Hq as [Hq _]. contradiction.
  - intros q Hq. rewrite Hp3, He2, He1 in Hq.
    apply elem_of_app in Hq as [Hq | Hq].
    + apply Hsub1 in Hq. rewrite Hp1 in Hq.
      apply list_elem_of_filter in Hq as [_ Hq]. exact Hq.
    + apply Hsub2 in Hq. rewrite Hp2 in Hq.
      apply list_elem_of_filter in Hq as [_ Hq]. exact Hq.
Qed.

(** A run of the selector on the sample bank. *)
Example getWeightedQuestions_sample :
  q_id <$> (getWeightedQuestions sampleBank (constRng (1 # 3))).1
  = [6; 3; 4; 1].
Proof. vm_compute. reflexivity. Qed.

(** * Further properties of the code *)

(** ** Scoring over a streak *)

(** X1. A streak of [n] correct answers without hint, from score [s] and
    combo [c], ends with combo [c + n] and score
    [s + 100 n + 25 (n c + n (n - 1) / 2)]. *)
Theorem correctStreak_closed_form (n : nat) (s c : Z) :
  let k := Z.of_nat n in
  (correctStreak n (s, c)).2 = c + k
  /\ 2 * (correctStreak n (s, c)).1
     = 2 * s + 200 * k + 50 * k * c + 25 * k * (k - 1).
Proof.
  induction n as [| n IH].
  - simpl. lia.
  - cbv zeta in *. unfold correctStreak in *. simpl Nat.iter.
    destruct (Nat.iter n _ (s, c)) as [s' c'] eqn:E.
    simpl in IH. destruct IH as [IHc IHs].
    rewrite Nat2Z.inj_succ. simpl. subst c'. split; [lia |].
    replace (2 * (s' + (100 + (c + Z.of_nat n) * 25)))
      with (2 * s' + 200 + 50 * c + 50 * Z.of_nat n) by lia.
    rewrite IHs. ring.
Qed.

(** Twenty correct answers in a row from a fresh game. *)
Example correctStreak_full_game : correctStreak 20 (0, 0) = (6750, 20).
Proof. reflexivity. Qed.

(** ** One question: hint, answer, reveal *)

Lemma handleHint_open (a : App) :
  isAnswerRevealed (gameState a) = false ->
  isPaused (gameState a) = false ->
  isHintActive (gameState a) = false ->
  isExitConfirmOpen (gameState a) = false ->
  handleHint a
  = setGameState
      (fun prev => set_isHintActive true (set_score (score prev - 100) prev))
      a.
Proof.
  intros Hr Hp Hh He. unfold handleHint. rewrite Hr, Hp, Hh, He. reflexivity.
Qed.



Lemma handleSelectOption_revealed (id : jsstring) (a : App) (g : rng) :
  isAnswerRevealed (gameState a) = true ->
  handleSelectOption id a g = (a, g).
Proof. intros H. unfold handleSelectOption. rewrite H. reflexivity. Qed.

Lemma executeAIAnswer_keeps_reveal (s : GameState) (b : bool) (g : rng) :
  isAnswerRevealed (executeAIAnswer s b g).1.1 = isAnswerRevealed s.
Proof.
  unfold executeAIAnswer. destruct b; [reflexivity |].
  unfold random. destruct (calculateNewScoreState _ _ _ _). reflexivity.
Qed.

(** X3. An answer is final.  Whatever a first selection did, a second
    selection on the result changes nothing; and once the answer is
    revealed, selecting, asking for a hint, pausing and the timer effect
    all leave the state as it is. *)
Theorem answer_is_final (id1 id2 : jsstring) (a : App) (g g2 : rng) :
  handleSelectOption id2 (handleSelectOption id1 a g).1 g2
  = ((handleSelectOption id1 a g).1, g2)
  /\ (isAnswerRevealed (gameState a) = true ->
      handleSelectOption id1 a g = (a, g) /\ handleHint a = a
      /\ handlePause a = a /\ timerEffect a g = (a, g)).
Proof.
  split.
  - unfold handleSelectOption at 2 3.
    destruct (isAnswerRevealed (gameState a) || isPaused (gameState a)
              || isExitConfirmOpen (gameState a)) eqn:Hg.
    + unfold handleSelectOption. simpl. rewrite Hg. reflexivity.
    + destruct (lookupZ (activeQuestions a)
                  (currentQuestionIndex (gameState a))) as [q |] eqn:Hq.
      * apply handleSelectOption_revealed.
        destruct (calculateNewScoreState _ _ _ _) as [ns nc].
        match goal with
        | |- context [if ?c then executeAIAnswer ?s ?b ?r else _] =>
            pose proof (executeAIAnswer_keeps_reveal s b r) as Hk;
            destruct c; [destruct (executeAIAnswer s b r) as [[n b'] g']|]
        end; simpl in *; auto.
      * unfold handleSelectOption. simpl. rewrite Hg, Hq. reflexivity.
  - intros H. split; [apply handleSelectOption_revealed, H |].
    unfold handleHint, handlePause, timerEffect. rewrite H. simpl.
    destruct (negb _); auto.
Qed.

Lemma answer_is_final_witness :
  let a := (handleSelectOption (js "B") sampleApp (constRng 0)).1 in
  handleSelectOption (js "A") a (constRng 0) = (a, constRng 0)
  /\ handleHint a = a.
Proof.
  cbv zeta. split.
  - apply (proj1 (answer_is_final (js "B") (js "A") sampleApp
                    (constRng 0) (constRng 0))).
  - pose proof (proj2 (answer_is_final (js "B") (js "A")
                         (handleSelectOption (js "B") sampleApp
                            (constRng 0)).1
                         (constRng 0) (constRng 0))) as H.
    assert (Hr : isAnswerRevealed
                   (gameState
                      (handleSelectOption (js "B") sampleApp
                         (constRng 0)).1) = true)
      by (vm_compute; reflexivity).
    exact (proj1 (proj2 (H Hr))).
Defined.

Lemma handleSelectOption_answers (id : jsstring) (a : App) (g : rng)
    (q : Question) :
  isAnswerRevealed (gameState a) = false ->
  isPaused (gameState a) = false ->
  isExitConfirmOpen (gameState a) = false ->
  lookupZ (activeQuestions a) (currentQuestionIndex (gameState a)) = Some q ->
  handleSelectOption id a g
  = (let prev := gameState a in
     let '(newScore, newConsecutive) :=
       calculateNewScoreState (score prev) (consecutiveCorrect prev)
         (optionIsCorrect id (options q)) (isHintActive prev) in
     let next :=
       set_consecutiveCorrect newConsecutive
         (set_score newScore
            (set_isAnswerRevealed true
               (set_selectedOptionId (Some id) prev))) in
     let '(next, answered', g') :=
       if bool_decide (gameMode prev = pve) && negb (aiAnsweredRef a)
       then executeAIAnswer next (aiAnsweredRef a) g
       else (next, aiAnsweredRef a, g) in
     (setTimeout CallHandleNext 1500
        (setAiAnswered answered' (setGameState (fun _ => next) a)), g')).
Proof.
  intros Hr Hp He Hq. unfold handleSelectOption.
  rewrite Hr, Hp, He, Hq. reflexivity.
Qed.

(** X4. A hint followed by an answer on an open question: the player ends
    100 points down when the answer is correct and 150 down when it is not,
    and the streak is at 0 either way. *)
Theorem hint_then_answer (id : jsstring) (a : App) (g : rng) (q : Question) :
  isAnswerRevealed (gameState a) = false ->
  isPaused (gameState a) = false ->
  isHintActive (gameState a) = false ->
  isExitConfirmOpen (gameState a) = false ->
  lookupZ (activeQuestions a) (currentQuestionIndex (gameState a)) = Some q ->
  let a' := (handleSelectOption id (handleHint a) g).1 in
  score (gameState a')
  = score (gameState a) - 100
    - (if optionIsCorrect id (options q) then 0 else 50)
  /\ consecutiveCorrect (gameState a') = 0
  /\ isAnswerRevealed (gameState a') = true.
Proof.
  intros Hr Hp Hh He Hq a'. subst a'.
  assert (Hhint : gameState (handleHint a)
                  = set_isHintActive true
                      (set_score (score (gameState a) - 100) (gameState a)))
    by (rewrite (handleHint_open a Hr Hp Hh He); reflexivity).
  assert (Hrest : activeQuestions (handleHint a) = activeQuestions a
                  /\ aiAnsweredRef (handleHint a) = aiAnsweredRef a).
  { unfold handleHint. rewrite Hr, Hp, Hh, He. simpl. auto. }
  destruct Hrest as [Hqs Hai].
  rewrite (handleSelectOption_answers id (handleHint a) g q);
    rewrite ?Hhint, ?Hqs; simpl; auto.
  destruct (optionIsCorrect id (options q)); simpl.
  - destruct (bool_decide _ && negb _).
    + pose proof (executeAIAnswer_keeps_reveal
                    (set_consecutiveCorrect 0
                       (set_score (score (gameState a) - 100)
                          (set_isAnswerRevealed true
                             (set_selectedOptionId (Some id)
                                (set_isHintActive true
                                   (set_score (score (gameState a) - 100)
                                      (gameState a)))))))
                    (aiAnsweredRef (handleHint a)) g) as Hk.
      revert Hk. unfold executeAIAnswer.
      destruct (aiAnsweredRef (handleHint a)); simpl; [intros _; lia |].
      destruct (Qltb _ _); simpl; intros _; lia.
    + simpl. lia.
  - destruct (bool_decide _ && negb _).
    + unfold executeAIAnswer.
      destruct (aiAnsweredRef (handleHint a)); simpl; [lia |].
      destruct (Qltb _ _); simpl; lia.
    + simpl. lia.
Qed.

Lemma hint_then_answer_witness :
  let a := setGameState (set_timeLeft 4) sampleApp in
  let a' := (handleSelectOption (js "B") (handleHint a) (constRng 0)).1 in
  score (gameState a') = 250 - 100 - 0
  /\ consecutiveCorrect (gameState a') = 0
  /\ isAnswerRevealed (gameState a') = true.
Proof.
  exact (hint_then_answer (js "B")
           (setGameState (set_timeLeft 4) sampleApp) (constRng 0)
           (sampleQuestion 4 "Brazil" None)
           eq_refl eq_refl eq_refl eq_refl eq_refl).
Defined.

(** X5. In pve mode an answer of the player settles the question for both
    parties in the same update: the player is scored on the chosen option
    and the hint flag, the opponent is marked as having answered, and it is
    scored by the same function on a fresh draw if it had not answered yet,
    and left alone if it had. *)
Theorem select_settles_both (id : jsstring) (a : App) (g : rng)
    (q : Question) :
  let gs := gameState a in
  isAnswerRevealed gs = false -> isPaused gs = false ->
  isExitConfirmOpen gs = false ->
  lookupZ (activeQuestions a) (currentQuestionIndex gs) = Some q ->
  gameMode gs = pve ->
  let a' := (handleSelectOption id a g).1 in
  let gs' := gameState a' in
  (score gs', consecutiveCorrect gs')
  = calculateNewScoreState (score gs) (consecutiveCorrect gs)
      (optionIsCorrect id (options q)) (isHintActive gs)
  /\ aiAnsweredRef a' = true
  /\ (computerScore gs', computerConsecutiveCorrect gs')
     = (if aiAnsweredRef a
        then (computerScore gs, computerConsecutiveCorrect gs)
        else calculateNewScoreState (computerScore gs)
               (computerConsecutiveCorrect gs)
               (Qltb (g O) (accuracy (AI_CONFIG (difficulty gs)))) false)
  /\ timeouts a' = timeouts a ++ [(1500, CallHandleNext)].
Proof.
  intros gs Hr Hp He Hq Hm a' gs'. subst gs' a'.
  rewrite (handleSelectOption_answers id a g q) by assumption.
  cbv zeta. fold gs. rewrite Hm.
  destruct (calculateNewScoreState (score gs) (consecutiveCorrect gs)
              (optionIsCorrect id (options q)) (isHintActive gs))
    as [ns nc].
  destruct (aiAnsweredRef a) eqn:Hai; simpl.
  - auto.
  - unfold random.
    destruct (calculateNewScoreState (computerScore gs)
                (computerConsecutiveCorrect gs) _ false) as [cs cc] eqn:E.
    simpl. auto.
Qed.

Lemma select_settles_both_witness :
  let a := setGameState (set_timeLeft 4) sampleApp in
  let a' := (handleSelectOption (js "B") a (constRng (9 # 10))).1 in
  (score (gameState a'), consecutiveCorrect (gameState a')) = (400, 3)
  /\ aiAnsweredRef a' = true
  /\ (computerScore (gameState a'),
      computerConsecutiveCorrect (gameState a')) = (-50, 0)
  /\ timeouts a' = [(1500, CallHandleNext)].
Proof.
  exact (select_settles_both (js "B")
           (setGameState (set_timeLeft 4) sampleApp) (constRng (9 # 10))
           (sampleQuestion 4 "Brazil" None)
           eq_refl eq_refl eq_refl eq_refl eq_refl).
Defined.

(** ** Leaderboard: what a submission keeps and drops *)

Lemma handleSaveScore_saved (now : Z) (a : App) :
  ~ blankName (playerName a) ->
  getLeaderboard (localStorage (handleSaveScore now a))
  = take MAX_LEADERBOARD_ENTRIES
      (sortBy byScoreDesc
         (getLeaderboard (localStorage a)
          ++ [mkEntry (substring0 10 (trim (playerName a)))
                (score (gameState a)) now])).
Proof.
  intros Hname. unfold handleSaveScore.
  destruct (trim (playerName a)) eqn:Ht; [| reflexivity].
  exfalso. apply Hname, trim_nil_iff, Ht.
Qed.

Lemma sortInsert_front (a : LeaderboardEntry) (l : list LeaderboardEntry) :
  Forall (fun b => e_score b <= e_score a) l ->
  sortInsert byScoreDesc a l = a :: l.
Proof.
  intros H. destruct H as [| b l Hb _]; [reflexivity |].
  simpl. unfold byScoreDesc.
  destruct (Z.ltb_spec 0 (e_score b - e_score a)); [lia | reflexivity].
Qed.

Lemma sortBy_sorted_id (l : list LeaderboardEntry) :
  sortedDesc l -> sortBy byScoreDesc l = l.
Proof.
  unfold sortedDesc. induction 1 as [| a l Hs IH Ha]; [reflexivity |].
  simpl. rewrite IH. apply sortInsert_front, Ha.
Qed.

(** X6. A qualifying score stays on the board.  If the stored board has at
    most 10 entries and [isHighScore] accepts the player's score, then after
    [handleSaveScore] with a name that is not blank the new entry is among
    the saved entries. *)
Theorem high_score_is_kept (now : Z) (a : App) :
  ~ blankName (playerName a) ->
  (length (getLeaderboard (localStorage a)) <= MAX_LEADERBOARD_ENTRIES)%nat ->
  isHighScore (score (gameState a)) (localStorage a) = true ->
  mkEntry (substring0 10 (trim (playerName a))) (score (gameState a)) now
  ∈ getLeaderboard (localStorage (handleSaveScore now a)).
Proof.
  intros Hname Hlen Hhigh.
  rewrite handleSaveScore_saved by exact Hname.
  set (lb := getLeaderboard (localStorage a)) in *.
  set (e := mkEntry _ _ _).
  set (S := sortBy byScoreDesc (lb ++ [e])).
  assert (HS : S ≡ₚ lb ++ [e]) by apply sortBy_perm.
  assert (HeS : e ∈ S) by (rewrite HS; apply elem_of_app; right; left).
  assert (Hsorted : sortedDesc S) by apply sortBy_sortedDesc.
  assert (HlenS : length S = Datatypes.S (length lb)).
  { rewrite (Permutation_length HS), length_app. simpl. lia. }
  unfold isHighScore in Hhigh. fold lb in Hhigh.
  destruct (score (gameState a) <=? 0); [discriminate |].
  case_bool_decide as Hfull.
  - rewrite take_ge; [exact HeS |].
    unfold MAX_LEADERBOARD_ENTRIES in *. lia.
  - destruct (last lb) as [x |] eqn:Hlast; [| discriminate].
    apply Z.ltb_lt in Hhigh.
    assert (Hx : x ∈ S).
    { rewrite HS. apply elem_of_app. left.
      apply last_Some_elem_of, Hlast. }
    rewrite <- (take_drop MAX_LEADERBOARD_ENTRIES S) in HeS, Hx, Hsorted.
    apply elem_of_app in HeS as [HeS | HeS]; [exact HeS |].
    exfalso.
    assert (Hd : length (drop MAX_LEADERBOARD_ENTRIES S) = 1%nat).
    { rewrite length_drop, HlenS.
      unfold MAX_LEADERBOARD_ENTRIES in *. lia. }
    destruct (drop MAX_LEADERBOARD_ENTRIES S) as [| y [| z r]] eqn:Hdrop;
      try discriminate Hd.
    apply list_elem_of_singleton in HeS. subst y.
    apply elem_of_app in Hx as [Hx | Hx].
    + pose proof (StronglySorted_app_1_elem_of _ _ _ x e Hsorted Hx
                    ltac:(left)) as Hle.
      simpl in Hle. subst e. simpl in *. lia.
    + apply list_elem_of_singleton in Hx. subst x e. simpl in Hhigh. lia.
Qed.

Lemma high_score_is_kept_witness :
  mkEntry (js "Bob") 250 7
  ∈ getLeaderboard
      (localStorage (handleSaveScore 7 (setPlayerName (js " Bob") sampleApp))).
Proof.
  refine (high_score_is_kept 7 (setPlayerName (js " Bob") sampleApp) _ _ _).
  - intros H. apply trim_nil_iff in H. discriminate H.
  - simpl. unfold MAX_LEADERBOARD_ENTRIES. lia.
  - reflexivity.
Defined.

(** X7. A score that does not beat a full board leaves it as it was.  If
    the stored board is sorted, has exactly 10 entries and the player's score
    is not above the last entry's, [handleSaveScore] saves the same 10
    entries in the same order. *)
Theorem low_score_is_dropped (now : Z) (a : App) (x : LeaderboardEntry) :
  ~ blankName (playerName a) ->
  sortedDesc (getLeaderboard (localStorage a)) ->
  length (getLeaderboard (localStorage a)) = MAX_LEADERBOARD_ENTRIES ->
  last (getLeaderboard (localStorage a)) = Some x ->
  score (gameState a) <= e_score x ->
  getLeaderboard (localStorage (handleSaveScore now a))
  = getLeaderboard (localStorage a).
Proof.
  intros Hname Hsorted Hlen Hlast Hle.
  rewrite handleSaveScore_saved by exact Hname.
  set (lb := getLeaderboard (localStorage a)) in *.
  rewrite sortBy_sorted_id.
  - apply take_app_length'. symmetry. exact Hlen.
  - apply StronglySorted_app_2; [| exact Hsorted | repeat constructor].
    intros x1 x2 H1 H2. apply list_elem_of_singleton in H2. subst x2. simpl.
    apply last_Some in Hlast as [l' Hl'].
    unfold sortedDesc in Hsorted. rewrite Hl' in Hsorted, H1.
    apply elem_of_app in H1 as [H1 | H1].
    + pose proof (StronglySorted_app_1_elem_of _ _ _ x1 x Hsorted H1
                    ltac:(left)) as Hx. simpl in Hx. lia.
    + apply list_elem_of_singleton in H1. subst x1. lia.
Qed.

(** X8. The sort of [handleSaveScore] is stable: entries of equal score
    keep the order they had before, so a new entry goes after the stored
    entries of the same score. *)
Theorem sortBy_stable (sc : Z) (l : list LeaderboardEntry) :
  filter (fun e => e_score e = sc) (sortBy byScoreDesc l)
  = filter (fun e => e_score e = sc) l.
Proof.
  assert (Hins : forall a l',
             filter (fun e => e_score e = sc) (sortInsert byScoreDesc a l')
             = filter (fun e => e_score e = sc) (a :: l')).
  { intros a l'. induction l' as [| b l' IH]; [reflexivity |].
    simpl. unfold byScoreDesc at 1.
    destruct (Z.ltb_spec 0 (e_score b - e_score a)); [| reflexivity].
    rewrite (filter_cons _ b), IH, !filter_cons.
    destruct (decide (e_score b = sc)), (decide (e_score a = sc));
      try reflexivity; lia. }
  induction l as [| a l IH]; [reflexivity |].
  simpl. rewrite Hins, !filter_cons, IH. reflexivity.
Qed.

Lemma low_score_is_dropped_witness :
  let board :=
    (fun n => mkEntry (js "P") (1000 - 50 * n) n)
      <$> [0; 1; 2; 3; 4; 5; 6; 7; 8; 9] in
  let a := setLocalStorage (mkStorage (Holds board) Missing)
             (setPlayerName (js "Zed") sampleApp) in
  getLeaderboard (localStorage (handleSaveScore 7 a)) = board.
Proof.
  cbv zeta.
  refine (low_score_is_dropped 7 _ (mkEntry (js "P") 550 9) _ _ _ _ _).
  - intros H. apply trim_nil_iff in H. discriminate H.
  - unfold sortedDesc. simpl. repeat constructor; simpl; lia.
  - reflexivity.
  - reflexivity.
  - simpl. lia.
Defined.

Lemma trimStart_snoc (l : jsstring) (c : N) :
  isTrimmable c = false -> trimStart (l ++ [c]) = trimStart l ++ [c].
Proof.
  intros Hc. induction l as [| d l IH]; simpl.
  - rewrite Hc. reflexivity.
  - destruct (isTrimmable d); [exact IH | reflexivity].
Qed.

Lemma trimStart_head (s : jsstring) :
  trimStart s = [] \/
  exists c rest, trimStart s = c :: rest /\ isTrimmable c = false.
Proof.
  induction s as [| c s IH]; simpl; [left; reflexivity |].
  destruct (isTrimmable c) eqn:Hc; [exact IH |].
  right. exists c, s. auto.
Qed.

Lemma trim_head (s : jsstring) :
  trim s = [] \/ exists c rest, trim s = c :: rest /\ isTrimmable c = false.
Proof.
  unfold trim. destruct (trimStart_head s) as [-> | (c & rest & -> & Hc)].
  - left. reflexivity.
  - right. exists c, (trimEnd rest). split; [| exact Hc].
    unfold trimEnd. rewrite reverse_cons, (trimStart_snoc _ _ Hc).
    rewrite reverse_snoc. reflexivity.
Qed.

(** X9. Names on the board.  After [handleSaveScore] with a name that is
    not blank, every saved entry is a stored one or the new one, and the
    name of the new one is not empty, has at most 10 code units and does not
    start with white space. *)
Theorem saved_names (now : Z) (a : App) :
  ~ blankName (playerName a) ->
  let name := substring0 10 (trim (playerName a)) in
  (forall e, e ∈ getLeaderboard (localStorage (handleSaveScore now a)) ->
             e ∈ getLeaderboard (localStorage a)
             \/ e = mkEntry name (score (gameState a)) now)
  /\ (length name <= 10)%nat
  /\ exists c rest, name = c :: rest /\ isTrimmable c = false.
Proof.
  intros Hname name. split; [| split].
  - intros e He. rewrite handleSaveScore_saved in He by exact Hname.
    apply (subseteq_take _ _ e) in He. rewrite sortBy_perm in He.
    apply elem_of_app in He as [He | He]; [left; exact He |].
    apply list_elem_of_singleton in He. right. exact He.
  - subst name. unfold substring0. rewrite length_take. lia.
  - subst name. destruct (trim_head (playerName a))
      as [Ht | (c & rest & Ht & Hc)].
    + exfalso. apply Hname, trim_nil_iff, Ht.
    + rewrite Ht. exists c, (take 9 rest). split; [reflexivity | exact Hc].
Qed.

Lemma saved_names_witness :
  let a := setPlayerName (js "  Alice Wonderland ") sampleApp in
  exists c rest,
    substring0 10 (trim (playerName a)) = c :: rest
    /\ isTrimmable c = false.
Proof.
  refine (proj2 (proj2 (saved_names 7
                          (setPlayerName (js "  Alice Wonderland ")
                             sampleApp) _))).
  intros H. apply trim_nil_iff in H. discriminate H.
Defined.

(** ** Leaderboard: the weekly window *)

Lemma lastMondayOf_fixed (tz now : Z) :
  lastMondayOf (fixedOffset tz) now
  = (7 * ((Day (now + tz) - 4) / 7) + 4) * msPerDay - tz.
Proof.
  rewrite (lastMondayOf_eq _ _ (fixedOffset_wallClockStable tz now)).
  unfold getDay, WeekDay, UTC, LocalTime. simpl.
  set (D := Day (now + tz)). f_equal. f_equal.
  pose proof (Z.div_mod (D + 4) 7).
  pose proof (Z.mod_pos_bound (D + 4) 7).
  pose proof (Z.div_mod ((D + 4) mod 7 + 6) 7).
  pose proof (Z.mod_pos_bound ((D + 4) mod 7 + 6) 7).
  pose proof (Z.div_mod (D - 4) 7).
  pose proof (Z.mod_pos_bound (D - 4) 7).
  lia.
Qed.

(** X10. The weekly window, in a zone at a fixed offset from UTC.  With a
    stored marker [t] not in the future, a check leaves the store alone as
    long as the current time is before the Monday 00:00 that follows [t],
    and clears the board and moves the marker at the first check from that
    Monday on. *)
Theorem weekly_window (tz t now : Z) (st : Storage) :
  quiz_last_reset st = Holds t -> t <= now ->
  (now < lastMondayOf (fixedOffset tz) t + 7 * msPerDay ->
   checkWeeklyReset (fixedOffset tz) now st = st)
  /\ (lastMondayOf (fixedOffset tz) t + 7 * msPerDay <= now ->
      checkWeeklyReset (fixedOffset tz) now st
      = mkStorage Missing (Holds now)).
Proof.
  intros Hm Hle. unfold checkWeeklyReset. rewrite Hm.
  rewrite !lastMondayOf_fixed.
  pose proof (Day_bounds (t + tz)) as Ht.
  pose proof (Day_bounds (now + tz)) as Hn.
  set (Dt := Day (t + tz)) in *. set (Dn := Day (now + tz)) in *.
  pose proof (Z.div_mod (Dt - 4) 7) as E1.
  pose proof (Z.mod_pos_bound (Dt - 4) 7) as B1.
  pose proof (Z.div_mod (Dn - 4) 7) as E2.
  pose proof (Z.mod_pos_bound (Dn - 4) 7) as B2.
  set (qt := (Dt - 4) / 7) in *. set (qn := (Dn - 4) / 7) in *.
  unfold msPerDay in *. split; intros H.
  - destruct (Z.ltb_spec t ((7 * qn + 4) * 86400000 - tz));
      [| reflexivity].
    exfalso. lia.
  - destruct (Z.ltb_spec t ((7 * qn + 4) * 86400000 - tz));
      [reflexivity |].
    exfalso. lia.
Qed.

Lemma weekly_window_witness :
  let z := fixedOffset 28800000 in
  let st := mkStorage (Holds []) (Holds 1700000000000) in
  checkWeeklyReset z 1700300000000 st = st
  /\ checkWeeklyReset z 1700500000000 st
     = mkStorage Missing (Holds 1700500000000).
Proof.
  cbv zeta. split.
  - refine (proj1 (weekly_window 28800000 1700000000000 1700300000000
                     (mkStorage (Holds []) (Holds 1700000000000))
                     eq_refl _) _); [lia | vm_compute; reflexivity].
  - refine (proj2 (weekly_window 28800000 1700000000000 1700500000000
                     (mkStorage (Holds []) (Holds 1700000000000))
                     eq_refl _) _); [lia | vm_compute; discriminate].
Defined.

Lemma lastMondayOf_fixed_le (tz now : Z) :
  lastMondayOf (fixedOffset tz) now <= now.
Proof.
  rewrite lastMondayOf_fixed.
  pose proof (Day_bounds (now + tz)) as Hn.
  set (D := Day (now + tz)) in *.
  pose proof (Z.div_mod (D - 4) 7).
  pose proof (Z.mod_pos_bound (D - 4) 7).
  unfold msPerDay in *. lia.
Qed.

(** X11. What the marker decides.  In any time zone and at any time, a
    marker that is absent or the empty string makes the check clear the
    board and store the current time, and a marker that is not empty and
    that [parseInt] reads as [NaN] makes it leave the store alone.  In a
    zone at a fixed offset from UTC, checking twice at the same time is the
    same as checking once, whatever the store holds. *)
Theorem checkWeeklyReset_idempotent (tz now : Z) (st : Storage) :
  checkWeeklyReset (fixedOffset tz) now
    (checkWeeklyReset (fixedOffset tz) now st)
  = checkWeeklyReset (fixedOffset tz) now st
  /\ (forall z t, quiz_last_reset st = Missing ->
                  checkWeeklyReset z t st = mkStorage Missing (Holds t))
  /\ (forall z t, quiz_last_reset st = Garbled ->
                  checkWeeklyReset z t st = st).
Proof.
  pose proof (lastMondayOf_fixed_le tz now) as Hle.
  unfold checkWeeklyReset. split; [| split].
  - destruct (quiz_last_reset st) as [| | t] eqn:Hm; simpl.
    + destruct (Z.ltb_spec now (lastMondayOf (fixedOffset tz) now));
        [lia | reflexivity].
    + rewrite Hm. reflexivity.
    + destruct (Z.ltb_spec t (lastMondayOf (fixedOffset tz) now))
        as [Hlt | Hge]; simpl.
      * destruct (Z.ltb_spec now (lastMondayOf (fixedOffset tz) now));
          [lia | reflexivity].
      * rewrite Hm.
        destruct (Z.ltb_spec t (lastMondayOf (fixedOffset tz) now));
          [lia | reflexivity].
  - intros z t ->. reflexivity.
  - intros z t ->. reflexivity.
Qed.

Lemma checkWeeklyReset_idempotent_witness :
  checkWeeklyReset newYork2024 1710086400000 (mkStorage (Holds []) Garbled)
  = mkStorage (Holds []) Garbled
  /\ checkWeeklyReset newYork2024 1710086400000 (mkStorage (Holds []) Missing)
     = mkStorage Missing (Holds 1710086400000).
Proof.
  split.
  - exact (proj2 (proj2 (checkWeeklyReset_idempotent 0 0
                           (mkStorage (Holds []) Garbled)))
             newYork2024 1710086400000 eq_refl).
  - exact (proj1 (proj2 (checkWeeklyReset_idempotent 0 0
                           (mkStorage (Holds []) Missing)))
             newYork2024 1710086400000 eq_refl).
Defined.

(** ** Question selector: shuffle and exhaustion *)

Lemma shuffle_from_draws {A} (i : nat) (l : list A) (g : rng) (n : nat) :
  (shuffle_from i l g).2 n = g (i + n)%nat.
Proof.
  revert l g. induction i as [| i IH]; intros l g; simpl; [reflexivity |].
  rewrite IH. reflexivity.
Qed.

(** X12. For every random stream [shuffle] returns a permutation of its
    input and consumes one draw per element but the first; with draws in
    [0, 1) the index drawn at position [i] is never beyond [i]. *)
Theorem shuffle_is_permutation {A} (arr : list A) (g : rng) :
  (shuffle arr g).1 ≡ₚ arr
  /\ length (shuffle arr g).1 = length arr
  /\ (forall n, (shuffle arr g).2 n = g (length arr - 1 + n)%nat)
  /\ (rng_ok g -> forall n i, (randomIndex (g n) i <= i)%nat).
Proof.
  split; [apply shuffle_perm |].
  split; [apply Permutation_length, shuffle_perm |].
  split; [intros n; apply shuffle_from_draws |].
  intros Hg n i. destruct (Hg n). apply random_index_in_range; assumption.
Qed.

Lemma shuffle_is_permutation_witness :
  (randomIndex (constRng (1 # 3) 0) 5 <= 5)%nat.
Proof.
  refine (proj2 (proj2 (proj2
            (shuffle_is_permutation sampleBank (constRng (1 # 3))))) _
            O 5%nat).
  intros n. unfold constRng. split; [discriminate | reflexivity].
Defined.

Lemma selectLoop_mono (limit : Z) (qs : list Question) sel :
  sel.2 ⊆ (selectLoop limit qs sel).2.
Proof.
  revert sel. induction qs as [| q rest IH]; intros [sq sc]; simpl;
    [reflexivity |].
  destruct (limit <=? Z.of_nat (length sq)); [reflexivity |].
  case_bool_decide; [apply (IH (sq, sc)) |].
  etransitivity; [| apply IH]. simpl. apply union_subseteq_l.
Qed.

Lemma selectLoop_exhausts (limit : Z) (qs : list Question) sel :
  Z.of_nat (length (selectLoop limit qs sel).1) < limit ->
  forall q, q ∈ qs -> country q ∈ (selectLoop limit qs sel).2.
Proof.
  revert sel. induction qs as [| q rest IH]; intros [sq sc]; simpl.
  - intros _ q Hq. inversion Hq.
  - destruct (Z.leb_spec limit (Z.of_nat (length sq))) as [Hle | Hlt].
    + simpl. lia.
    + case_bool_decide as Hin; intros Hlen q' Hq'.
      * inversion Hq' as [| ? ? ? Hq'']; subst.
        -- apply (selectLoop_mono limit rest (sq, sc)), Hin.
        -- apply IH; assumption.
      * inversion Hq' as [| ? ? ? Hq'']; subst.
        -- apply (selectLoop_mono limit rest
                    (sq ++ [q], sc ∪ {[country q]})).
           simpl. apply elem_of_union_r, elem_of_singleton. reflexivity.
        -- apply IH; assumption.
Qed.

(** The set of selected countries holds nothing but the countries of the
    selected questions. *)
Lemma selectLoop_set (limit : Z) (qs : list Question) sel :
  (forall c, c ∈ sel.2 -> c ∈ country <$> sel.1) ->
  forall c, c ∈ (selectLoop limit qs sel).2 ->
            c ∈ country <$> (selectLoop limit qs sel).1.
Proof.
  revert sel. induction qs as [| q rest IH]; intros [sq sc] Hs; simpl;
    [exact Hs |].
  destruct (limit <=? Z.of_nat (length sq)); [exact Hs |].
  case_bool_decide; [apply (IH (sq, sc)), Hs |].
  apply IH. simpl. intros c Hc. rewrite fmap_app. apply elem_of_app.
  apply elem_of_union in Hc as [Hc | Hc].
  - left. apply Hs, Hc.
  - right. apply elem_of_singleton in Hc. subst c. left.
Qed.

Lemma filter_all {A} (P : A -> Prop) `{forall x, Decision (P x)}
    (l : list A) :
  (forall x, x ∈ l -> P x) -> filter P l = l.
Proof.
  induction l as [| x l IH]; intros Hl; [reflexivity |].
  rewrite filter_cons. destruct (decide (P x)) as [_ | Hn].
  - f_equal. apply IH. intros y Hy. apply Hl. right. exact Hy.
  - exfalso. apply Hn, Hl. left.
Qed.

(** X13. The selector stops short only when the bank runs out.  If fewer
    than 20 questions are returned, every country that the bank has outside
    'EastAsia' is among the returned ones; if fewer than 10 of the
    returned questions are from 'EastAsia', every country of that subset is
    among the returned ones. *)
Theorem getWeightedQuestions_exhaustive (allQuestions : list Question)
    (g : rng) :
  let out := (getWeightedQuestions allQuestions g).1 in
  (Z.of_nat (length out) < QUESTIONS_PER_GAME ->
   forall q, q ∈ allQuestions -> region q <> Some EastAsia ->
             country q ∈ country <$> out)
  /\ (Z.of_nat (length (eastAsiaOf out)) < targetEastAsiaCount ->
      forall q, q ∈ allQuestions -> region q = Some EastAsia ->
                country q ∈ country <$> out).
Proof.
  cbv zeta. unfold getWeightedQuestions.
  set (eastAsia := filter (fun q => region q = Some EastAsia) allQuestions).
  set (others := filter (fun q => region q <> Some EastAsia) allQuestions).
  pose proof (shuffle_perm eastAsia g) as Hp1.
  destruct (shuffle eastAsia g) as [shuffledEastAsia g1]. simpl in Hp1.
  pose proof (shuffle_perm others g1) as Hp2.
  destruct (shuffle others g1) as [shuffledOthers g2]. simpl in Hp2.
  set (sel1 := selectLoop targetEastAsiaCount shuffledEastAsia ([], ∅)).
  set (sel2 := selectLoop QUESTIONS_PER_GAME shuffledOthers sel1).
  pose proof (shuffle_perm sel2.1 g2) as Hp3.
  assert (Hset1 : forall c, c ∈ sel1.2 -> c ∈ country <$> sel1.1).
  { apply selectLoop_set. simpl. intros c Hc.
    apply elem_of_empty in Hc. contradiction. }
  assert (Hset2 : forall c, c ∈ sel2.2 -> c ∈ country <$> sel2.1)
    by apply selectLoop_set, Hset1.
  destruct (selectLoop_extends targetEastAsiaCount shuffledEastAsia ([], ∅))
    as (extra1 & He1 & Hsub1). fold sel1 in He1. simpl in He1.
  destruct (selectLoop_extends QUESTIONS_PER_GAME shuffledOthers sel1)
    as (extra2 & He2 & Hsub2). fold sel2 in He2.
  split.
  - intros Hlen q Hq Hr. rewrite Hp3. apply Hset2.
    apply selectLoop_exhausts.
    + rewrite (Permutation_length Hp3) in Hlen. exact Hlen.
    + rewrite Hp2. apply list_elem_of_filter. auto.
  - intros Hlen q Hq Hr. rewrite Hp3.
    assert (Hea : eastAsiaOf sel2.1 = sel1.1).
    { unfold eastAsiaOf. rewrite He2, filter_app.
      rewrite (filter_none _ extra2), app_nil_r.
      - apply filter_all. intros x Hx. rewrite He1 in Hx.
        apply Hsub1 in Hx. rewrite Hp1 in Hx.
        apply list_elem_of_filter in Hx as [Hx _]. exact Hx.
      - intros x Hx Hrx. apply Hsub2 in Hx. rewrite Hp2 in Hx.
        apply list_elem_of_filter in Hx as [Hx _]. contradiction. }
    unfold eastAsiaOf in Hlen. rewrite Hp3 in Hlen.
    fold (eastAsiaOf sel2.1) in Hlen. rewrite Hea in Hlen.
    rewrite He2, fmap_app. apply elem_of_app. left.
    apply Hset1. apply selectLoop_exhausts; [exact Hlen |].
    rewrite Hp1. apply list_elem_of_filter. auto.
Qed.

Lemma getWeightedQuestions_exhaustive_witness :
  country (sampleQuestion 5 "Brazil" (Some (js "America")))
  ∈ country <$> (getWeightedQuestions sampleBank (constRng (1 # 3))).1.
Proof.
  refine (proj1 (getWeightedQuestions_exhaustive sampleBank
                   (constRng (1 # 3))) _
            (sampleQuestion 5 "Brazil" (Some (js "America"))) _ _).
  - vm_compute. reflexivity.
  - unfold sampleBank. do 4 right. left.
  - discriminate.
Defined.

(** ** Invariants of every run *)

Lemma calculateNewScoreState_combo (s c : Z) (b h : bool) :
  0 <= c -> 0 <= (calculateNewScoreState s c b h).2.
Proof. intros Hc. destruct b, h; simpl; lia. Qed.

Lemma executeAIAnswer_sessionOK (s : GameState) (b : bool) (g : rng) :
  sessionOK s -> sessionOK (executeAIAnswer s b g).1.1.
Proof.
  intros Hs. unfold executeAIAnswer. destruct b; [exact Hs |].
  unfold random.
  pose proof (calculateNewScoreState_combo (computerScore s)
                (computerConsecutiveCorrect s)
                (Qltb (g O) (accuracy (AI_CONFIG (difficulty s)))) false)
    as Hc.
  destruct (calculateNewScoreState _ _ _ _) as [cs cc]. simpl in *.
  unfold sessionOK in *. simpl. intuition.
Qed.

Lemma nextState_sessionOK (s : GameState) :
  sessionOK s -> sessionOK (nextState s).
Proof.
  unfold sessionOK, nextState. intros Hs.
  destruct (Z.leb_spec (totalQuestions s) (currentQuestionIndex s + 1));
    simpl; unfold GAME_DURATION_SECONDS in *; intuition lia.
Qed.

Lemma startPlaying_sessionOK (Q : list Question) (m : GameMode)
    (d : Difficulty) (a : App) (g : rng) :
  sessionOK (gameState (startPlaying Q m d a g).1).
Proof.
  unfold startPlaying. destruct (getWeightedQuestions Q g). simpl.
  unfold sessionOK. simpl.
  unfold QUESTIONS_PER_GAME, GAME_DURATION_SECONDS. lia.
Qed.

Lemma timerEffect_sessionOK (a : App) (g : rng) :
  sessionOK (gameState a) -> sessionOK (gameState (timerEffect a g).1).
Proof.
  intros Hs. unfold timerEffect.
  destruct (negb _); [exact Hs |].
  destruct (_ || _); [exact Hs |].
  destruct (timeLeft (gameState a) <=? 0).
  - unfold timeoutUpdate.
    assert (Hn : sessionOK
                   (match gameMode (gameState a) with
                    | single => (gameState a, aiAnsweredRef a, g)
                    | pve => executeAIAnswer (gameState a)
                               (aiAnsweredRef a) g
                    end).1.1).
    { destruct (gameMode (gameState a));
        [exact Hs | apply executeAIAnswer_sessionOK, Hs]. }
    destruct (match gameMode (gameState a) with
              | single => _ | pve => _ end) as [[n b] g'].
    simpl in *. unfold sessionOK in *. simpl. intuition lia.
  - destruct (_ && _); [| exact Hs].
    pose proof (executeAIAnswer_sessionOK (gameState a) (aiAnsweredRef a) g
                  Hs) as Hn.
    destruct (executeAIAnswer _ _ _) as [[n b] g']. exact Hn.
Qed.

Lemma handleSelectOption_sessionOK (id : jsstring) (a : App) (g : rng) :
  sessionOK (gameState a) ->
  sessionOK (gameState (handleSelectOption id a g).1).
Proof.
  intros Hs. unfold handleSelectOption.
  destruct (_ || _); [exact Hs |].
  destruct (lookupZ _ _) as [q |]; [| exact Hs].
  pose proof (calculateNewScoreState_combo (score (gameState a))
                (consecutiveCorrect (gameState a))
                (optionIsCorrect id (options q))
                (isHintActive (gameState a))) as Hc.
  destruct (calculateNewScoreState _ _ _ _) as [ns nc]. simpl in Hc.
  assert (Hn : sessionOK
                 (set_consecutiveCorrect nc
                    (set_score ns
                       (set_isAnswerRevealed true
                          (set_selectedOptionId (Some id) (gameState a)))))).
  { unfold sessionOK in *. simpl. intuition lia. }
  destruct (_ && _).
  - pose proof (executeAIAnswer_sessionOK _ (aiAnsweredRef a) g Hn) as Hn'.
    destruct (executeAIAnswer _ _ _) as [[n b] g']. exact Hn'.
  - exact Hn.
Qed.

Lemma step_sessionOK (Q : list Question) (p : App * rng) (e : Event) :
  sessionOK (gameState p.1) -> sessionOK (gameState (step Q p e).1).
Proof.
  destruct p as [a g]. simpl. intros Hs.
  destruct e; simpl; try exact Hs.
  - destruct mode; [apply startPlaying_sessionOK | exact Hs].
  - apply startPlaying_sessionOK.
  - unfold sessionOK. simpl.
    unfold QUESTIONS_PER_GAME, GAME_DURATION_SECONDS. lia.
  - unfold handleSaveScore. destruct (negb _); exact Hs.
  - unfold handleExitRequest. case_bool_decide; exact Hs.
  - unfold handlePause. destruct (_ || _); exact Hs.
  - unfold handleHint. destruct (_ || _); [exact Hs |].
    unfold sessionOK in *. simpl. intuition lia.
  - apply handleSelectOption_sessionOK, Hs.
  - unfold initAI, initAIWith. destruct (_ && _); [| exact Hs].
    unfold random. exact Hs.
  - apply timerEffect_sessionOK, Hs.
  - unfold sessionOK in *. simpl. intuition lia.
  - unfold fire. destruct (timeouts a !! n) as [[ms cb] |]; [| exact Hs].
    destruct cb; simpl; [apply nextState_sessionOK, Hs | exact Hs].
Qed.

(** X14. In every state that any sequence of events reaches from the first
    render, the total is 20, the question index is between 0 and 19, the
    time left is at most 10, and both streak counters are non-negative. *)
Theorem run_sessionOK (Q : list Question) (es : list Event) (st : Storage)
    (g : rng) :
  sessionOK (gameState (run Q es (initialApp st, g)).1).
Proof.
  unfold run.
  assert (H0 : sessionOK (gameState (initialApp st, g).1)).
  { unfold sessionOK. simpl.
    unfold QUESTIONS_PER_GAME, GAME_DURATION_SECONDS. lia. }
  revert H0. generalize (initialApp st, g).
  induction es as [| e es IH]; intros p Hp; simpl; [exact Hp |].
  apply IH, step_sessionOK, Hp.
Qed.

Lemma handleSaveScore_storeOK (now : Z) (a : App) :
  storeOK (localStorage a) -> storeOK (localStorage (handleSaveScore now a)).
Proof.
  intros Hs. destruct (trim (playerName a)) as [| c r] eqn:Ht.
  - unfold handleSaveScore. rewrite Ht. exact Hs.
  - assert (Hn : ~ blankName (playerName a)).
    { intros Hb. apply trim_nil_iff in Hb. congruence. }
    unfold storeOK. rewrite (handleSaveScore_saved now a Hn). split.
    + apply sortedDesc_take, sortBy_sortedDesc.
    + rewrite length_take. lia.
Qed.

Lemma checkWeeklyReset_storeOK (z : TimeZone) (now : Z) (st : Storage) :
  storeOK st -> storeOK (checkWeeklyReset z now st).
Proof.
  intros Hs. unfold checkWeeklyReset.
  destruct (match quiz_last_reset st with
            | Missing => true
            | Garbled => false
            | Holds lastReset => lastReset <? lastMondayOf z now
            end); [| exact Hs].
  split; simpl; [constructor | lia].
Qed.

Lemma step_storeOK (Q : list Question) (p : App * rng) (e : Event) :
  storeOK (localStorage p.1) -> storeOK (localStorage (step Q p e).1).
Proof.
  destruct p as [a g]. simpl. intros Hs.
  destruct e; simpl; try exact Hs.
  - apply checkWeeklyReset_storeOK, Hs.
  - destruct mode; [| exact Hs].
    unfold handleModeSelect, startPlaying.
    destruct (getWeightedQuestions Q g). exact Hs.
  - unfold handleDifficultySelect, startPlaying.
    destruct (getWeightedQuestions Q g). exact Hs.
  - apply handleSaveScore_storeOK, Hs.
  - unfold handleExitRequest. case_bool_decide; exact Hs.
  - unfold handlePause. destruct (_ || _); exact Hs.
  - unfold handleHint. destruct (_ || _); exact Hs.
  - unfold handleSelectOption. destruct (_ || _); [exact Hs |].
    destruct (lookupZ _ _); [| exact Hs].
    destruct (calculateNewScoreState _ _ _ _).
    destruct (_ && _); [| exact Hs].
    destruct (executeAIAnswer _ _ _) as [[n b] g']. exact Hs.
  - unfold initAI, initAIWith. destruct (_ && _); exact Hs.
  - unfold timerEffect. destruct (negb _); [exact Hs |].
    destruct (_ || _); [exact Hs |].
    destruct (_ <=? _).
    + destruct (timeoutUpdate _ _ _) as [[n b] g']. exact Hs.
    + destruct (_ && _); [| exact Hs].
      destruct (executeAIAnswer _ _ _) as [[n b] g']. exact Hs.
  - unfold fire. destruct (timeouts a !! n) as [[ms cb] |]; [| exact Hs].
    destruct cb; exact Hs.
Qed.

(** X15. The board stays well formed.  If the store starts with a board
    sorted descending by score with at most 10 entries (or without a
    board), the same holds after any sequence of events. *)
Theorem run_storeOK (Q : list Question) (es : list Event) (st : Storage)
    (g : rng) :
  storeOK st -> storeOK (localStorage (run Q es (initialApp st, g)).1).
Proof.
  unfold run. intros H0.
  change st with (localStorage (initialApp st, g).1) in H0.
  revert H0. generalize (initialApp st, g).
  induction es as [| e es IH]; intros p Hp; simpl; [exact Hp |].
  apply IH, step_storeOK, Hp.
Qed.

Lemma run_storeOK_witness :
  storeOK
    (localStorage
       (run sampleBank
          [Mount newYork2024 1710086400000; ModeSelect single;
           SelectOption (js "B"); Fire 0; TypeName (js "Ann");
           SaveScore 1710086460000; BackToMenu]
          (initialApp emptyStorage, constRng (1 # 3))).1).
Proof.
  apply run_storeOK. split; simpl; [constructor | lia].
Defined.

(** ** A question that runs out of time *)

Lemma seconds_succ (n : nat) (p : App * rng) :
  seconds (S n) p = seconds n (second p).
Proof. unfold seconds. apply Nat.iter_succ_r. Qed.

(** One second while the time is not up: the time left drops by one, and
    the only other change is the opponent's answer, if its trigger is
    reached and it has not answered yet. *)
Lemma second_running (a : App) (g : rng) :
  let gs := gameState a in
  status gs = playing -> isAnswerRevealed gs = false ->
  isPaused gs = false -> isExitConfirmOpen gs = false ->
  0 < timeLeft gs ->
  second (a, g) = (tick a, g)
  \/ (gameMode gs = pve /\ aiAnsweredRef a = false
      /\ second (a, g)
         = (tick
              (setAiAnswered true
                 (setGameState
                    (fun _ =>
                       let '(cs, cc) :=
                         calculateNewScoreState (computerScore gs)
                           (computerConsecutiveCorrect gs)
                           (Qltb (g O) (accuracy (AI_CONFIG (difficulty gs))))
                           false in
                       set_computerConsecutiveCorrect cc
                         (set_computerScore cs gs)) a)),
            fun n => g (S n))).
Proof.
  intros gs Hst Hr Hp He Ht.
  unfold second, timerRunning, timerEffect. simpl. fold gs.
  rewrite Hst, Hr, Hp, He. simpl.
  destruct (Z.leb_spec (timeLeft gs) 0); [lia |].
  destruct (Z.ltb_spec 0 (timeLeft gs)); [| lia].
  destruct (gameMode gs) eqn:Hm; simpl; [left; reflexivity |].
  destruct (aiAnsweredRef a) eqn:Hai; simpl; [left; reflexivity |].
  destruct (Qle_bool _ _); [| left; reflexivity].
  right. split; [reflexivity |]. split; [reflexivity |].
  unfold executeAIAnswer, random.
  destruct (calculateNewScoreState _ _ _ _). reflexivity.
Qed.

(** X16. A question left unanswered.  From an open question with [n]
    seconds left and an undisturbed timer, [n + 1] runs of the timer bring
    the time to 0, cost the player exactly 50 points and the streak, reveal
    the answer and schedule one advance.  In pve mode the opponent has then
    answered exactly once in all: if it had not answered before, it is
    scored once, on the first draw, whenever its trigger came; if it had, or
    in single mode, its score is untouched. *)
Theorem question_times_out (n : nat) (a : App) (g : rng) :
  let gs := gameState a in
  status gs = playing -> isAnswerRevealed gs = false ->
  isPaused gs = false -> isExitConfirmOpen gs = false ->
  timeLeft gs = Z.of_nat n ->
  let a' := (seconds (S n) (a, g)).1 in
  let gs' := gameState a' in
  score gs' = score gs - 50
  /\ consecutiveCorrect gs' = 0
  /\ isAnswerRevealed gs' = true
  /\ timeLeft gs' = 0
  /\ currentQuestionIndex gs' = currentQuestionIndex gs
  /\ timeouts a' = timeouts a ++ [(1500, CallHandleNext)]
  /\ aiAnsweredRef a'
     = (if bool_decide (gameMode gs = pve) then true else aiAnsweredRef a)
  /\ (computerScore gs', computerConsecutiveCorrect gs')
     = (if bool_decide (gameMode gs = pve) && negb (aiAnsweredRef a)
        then calculateNewScoreState (computerScore gs)
               (computerConsecutiveCorrect gs)
               (Qltb (g O) (accuracy (AI_CONFIG (difficulty gs)))) false
        else (computerScore gs, computerConsecutiveCorrect gs)).
Proof.
  cbv zeta. revert a g. induction n as [| n IH]; intros a g Hst Hr Hp He Ht.
  - change (seconds 1 (a, g)) with (second (a, g)).
    unfold second, timerRunning. simpl fst. simpl snd.
    rewrite Ht. rewrite andb_false_r.
    rewrite timerEffect_timeout by (auto; lia).
    unfold timeoutUpdate.
    destruct (gameMode (gameState a)) eqn:Hm; simpl.
    + repeat split; try reflexivity; exact Ht.
    + destruct (aiAnsweredRef a) eqn:Hai; simpl.
      * repeat split; try reflexivity; exact Ht.
      * unfold random.
        destruct (calculateNewScoreState _ _ _ _) as [cs cc]. simpl.
        repeat split; try reflexivity; exact Ht.
  - rewrite seconds_succ.
    pose proof (second_running a g Hst Hr Hp He ltac:(lia)) as Hsec.
    cbv zeta in Hsec.
    destruct (calculateNewScoreState (computerScore (gameState a)) _ _ _)
      as [cs cc] eqn:E.
    destruct Hsec as [-> | (Hm & Hai & ->)].
    + specialize (IH (tick a) g). simpl in IH.
      destruct IH as (H1 & H2 & H3 & H4 & H5 & H6 & H7 & H8);
        try assumption; [lia |].
      rewrite ?E in *.
      repeat (split; [assumption |]). assumption.
    + match goal with
      | |- context [seconds (S n) (tick ?b, ?g')] =>
          specialize (IH (tick b) g')
      end.
      simpl in IH. rewrite Hm in IH. simpl in IH.
      destruct IH as (H1 & H2 & H3 & H4 & H5 & H6 & H7 & H8);
        try assumption; [lia |].
      rewrite Hm, Hai. simpl.
      repeat (split; [assumption |]). assumption.
Qed.

Lemma question_times_out_witness :
  let a := setGameState (set_timeLeft 3) sampleApp in
  let a' := (seconds 4 (a, constRng (9 # 10))).1 in
  score (gameState a') = 250 - 50
  /\ consecutiveCorrect (gameState a') = 0
  /\ isAnswerRevealed (gameState a') = true
  /\ timeLeft (gameState a') = 0
  /\ currentQuestionIndex (gameState a') = 3
  /\ timeouts a' = [(1500, CallHandleNext)]
  /\ aiAnsweredRef a' = true
  /\ (computerScore (gameState a'),
      computerConsecutiveCorrect (gameState a')) = (-50, 0).
Proof.
  exact (question_times_out 3 (setGameState (set_timeLeft 3) sampleApp)
           (constRng (9 # 10)) eq_refl eq_refl eq_refl eq_refl eq_refl).
Defined.

(** ** Progress through the questions *)

(** X17. Advancing [k] times from question [i] of [t] reaches question
    [min (i + k) (t - 1)]; the status turns to [finished] exactly when the
    advances run past the last question, and nothing else of the scores and
    streaks changes: a streak carries over from one question to the next. *)
Theorem advances_progress (k : nat) (s : GameState) :
  0 <= currentQuestionIndex s < totalQuestions s ->
  let s' := advances k s in
  currentQuestionIndex s'
  = Z.min (currentQuestionIndex s + Z.of_nat k) (totalQuestions s - 1)
  /\ status s'
     = (if totalQuestions s <=? currentQuestionIndex s + Z.of_nat k
        then finished else status s)
  /\ totalQuestions s' = totalQuestions s
  /\ score s' = score s /\ computerScore s' = computerScore s
  /\ consecutiveCorrect s' = consecutiveCorrect s
  /\ computerConsecutiveCorrect s' = computerConsecutiveCorrect s.
Proof.
  intros Hi. cbv zeta. induction k as [| k IH].
  - unfold advances. simpl. rewrite Z.add_0_r.
    destruct (Z.leb_spec (totalQuestions s) (currentQuestionIndex s));
      repeat split; try reflexivity; lia.
  - unfold advances in *. simpl Nat.iter.
    destruct IH as (H1 & H2 & H3 & H4 & H5 & H6 & H7).
    set (s1 := Nat.iter k nextState s) in *.
    rewrite Nat2Z.inj_succ. unfold nextState. rewrite H1, H3.
    destruct (Z.leb_spec (totalQuestions s)
                (Z.min (currentQuestionIndex s + Z.of_nat k)
                   (totalQuestions s - 1) + 1)) as [Hle | Hlt]; simpl.
    + rewrite H1, H3, H4, H5, H6, H7.
      destruct (Z.leb_spec (totalQuestions s)
                  (currentQuestionIndex s + Z.succ (Z.of_nat k)));
        repeat split; try reflexivity; lia.
    + rewrite H2, H3, H4, H5, H6, H7.
      destruct (Z.leb_spec (totalQuestions s)
                  (currentQuestionIndex s + Z.of_nat k)); [lia |].
      destruct (Z.leb_spec (totalQuestions s)
                  (currentQuestionIndex s + Z.succ (Z.of_nat k)));
        repeat split; try reflexivity; lia.
Qed.

Lemma advances_progress_witness :
  let s := set_status playing initialGameState in
  status (advances 19 s) = playing
  /\ currentQuestionIndex (advances 19 s) = 19
  /\ status (advances 20 s) = finished
  /\ currentQuestionIndex (advances 20 s) = 19.
Proof.
  cbv zeta.
  destruct (advances_progress 19 (set_status playing initialGameState))
    as (H1 & H2 & _); [simpl; unfold QUESTIONS_PER_GAME; lia |].
  destruct (advances_progress 20 (set_status playing initialGameState))
    as (H3 & H4 & _); [simpl; unfold QUESTIONS_PER_GAME; lia |].
  rewrite H1, H2, H3, H4. repeat split.
Defined.

(** ** Pause and exit confirmation *)

(** X18. Pausing an open question freezes it: the timer effect, a
    selection and a hint request change nothing while paused, and a second
    pause request gives back the state before the first. *)
Theorem pause_freezes (a : App) (g : rng) (id : jsstring) :
  isAnswerRevealed (gameState a) = false ->
  isExitConfirmOpen (gameState a) = false ->
  isPaused (gameState a) = false ->
  let p := handlePause a in
  isPaused (gameState p) = true
  /\ timerEffect p g = (p, g)
  /\ handleSelectOption id p g = (p, g)
  /\ handleHint p = p
  /\ handlePause p = a.
Proof.
  destruct a as [gs qs pn sv ai tr ls ts].
  destruct gs as [st gm df sc cs cc ccc ix tot tl sel rev pau hin ex].
  simpl. intros -> -> ->. unfold handlePause. simpl.
  split; [reflexivity |].
  split; [unfold timerEffect; simpl; destruct (negb _); reflexivity |].
  split; [reflexivity |]. split; reflexivity.
Qed.

Lemma pause_freezes_witness :
  handlePause (handlePause sampleApp) = sampleApp
  /\ timerEffect (handlePause sampleApp) (constRng 0)
     = (handlePause sampleApp, constRng 0).
Proof.
  destruct (pause_freezes sampleApp (constRng 0) (js "B")
              eq_refl eq_refl eq_refl) as (_ & H1 & _ & _ & H2).
  split; [exact H2 | exact H1].
Defined.

(** X19. An exit request while playing opens the confirmation, and while
    it is open the timer effect, a selection, a hint request and a pause
    request change nothing; cancelling gives back the state before the
    request.  Outside [playing] the request is ignored. *)
Theorem exit_request_freezes (a : App) (g : rng) (id : jsstring) :
  (status (gameState a) <> playing -> handleExitRequest a = a)
  /\ (status (gameState a) = playing ->
      isExitConfirmOpen (gameState a) = false ->
      let e := handleExitRequest a in
      isExitConfirmOpen (gameState e) = true
      /\ timerEffect e g = (e, g)
      /\ handleSelectOption id e g = (e, g)
      /\ handleHint e = e
      /\ handlePause e = e
      /\ handleCancelExit e = a).
Proof.
  destruct a as [gs qs pn sv ai tr ls ts].
  destruct gs as [st gm df sc cs cc ccc ix tot tl sel rev pau hin ex].
  simpl. split.
  - intros Hst. unfold handleExitRequest. simpl.
    case_bool_decide; [contradiction | reflexivity].
  - intros -> ->. unfold handleExitRequest. simpl.
    split; [reflexivity |].
    split; [unfold timerEffect; simpl; rewrite !orb_true_r; reflexivity |].
    split; [unfold handleSelectOption; simpl; rewrite !orb_true_r;
            reflexivity |].
    split; [unfold handleHint; simpl; rewrite !orb_true_r; reflexivity |].
    split; [unfold handlePause; simpl; rewrite !orb_true_r; reflexivity |].
    reflexivity.
Qed.

Lemma exit_request_freezes_witness :
  handleCancelExit (handleExitRequest sampleApp) = sampleApp
  /\ handleExitRequest (handleRestartGame sampleApp)
     = handleRestartGame sampleApp.
Proof.
  destruct (exit_request_freezes sampleApp (constRng 0) (js "B"))
    as [_ H].
  destruct (H eq_refl eq_refl) as (_ & _ & _ & _ & _ & H1).
  destruct (exit_request_freezes (handleRestartGame sampleApp)
              (constRng 0) (js "B")) as [H2 _].
  split; [exact H1 | apply H2; discriminate].
Defined.

(** ** The opponent's trigger *)

Lemma rounding_respects (fl : Q -> Q) (x y : Q) :
  roundingOK fl -> (x == y)%Q -> (fl x == fl y)%Q.
Proof.
  intros [Hmono _] Hxy. apply Qle_antisym; apply Hmono; rewrite Hxy;
    apply Qle_refl.
Qed.

Lemma rounding_between (fl : Q -> Q) (n m : Z) (x : Q) :
  roundingOK fl -> -40 <= n <= 40 -> -40 <= m <= 40 ->
  (n # 4 <= x)%Q -> (x <= m # 4)%Q ->
  (n # 4 <= fl x)%Q /\ (fl x <= m # 4)%Q.
Proof.
  intros [Hmono Hex] Hn Hm H1 H2. split.
  - rewrite <- (Hex n Hn). apply Hmono, H1.
  - rewrite <- (Hex m Hm). apply Hmono, H2.
Qed.

Lemma roundToEighths_ok : roundingOK roundToEighths.
Proof.
  split.
  - intros x y Hxy. unfold roundToEighths.
    assert (H : Qfloor (x * 8) <= Qfloor (y * 8)).
    { apply Qfloor_resp_le. apply Qmult_le_compat_r; [exact Hxy |].
      discriminate. }
    unfold Qle. cbn [Qnum Qden]. lia.
  - intros n _. unfold roundToEighths.
    assert (E : Qfloor ((n # 4) * 8) = 2 * n).
    { unfold Qfloor, Qmult. cbn [Qnum Qden].
      replace (n * 8) with (2 * n * 4) by lia.
      change (Z.pos (4 * 1)) with 4. apply Z.div_mul. lia. }
    rewrite E. unfold Qeq. cbn [Qnum Qden]. lia.
Qed.

Lemma rounding_id_ok : roundingOK (fun q => q).
Proof. split; [auto | intros; reflexivity]. Qed.

(** X20. When a pve question starts, the opponent is marked as not having
    answered, one draw is consumed and the game state is left alone; with a
    draw in [0, 1), and whatever the rounding of the arithmetic on doubles
    (monotone, exact on quarters), the trigger time lies between
    [10 - maxDelay] and [10 - minDelay] of the difficulty, both included,
    so it is never below 0 and never above 8.  Outside pve play the effect
    does nothing. *)
Theorem initAI_trigger (fl : Q -> Q) (a : App) (g : rng) :
  let gs := gameState a in
  (status gs <> playing \/ gameMode gs <> pve -> initAIWith fl a g = (a, g))
  /\ (status gs = playing -> gameMode gs = pve ->
      roundingOK fl -> (0 <= g O)%Q -> (g O < 1)%Q ->
      let a' := (initAIWith fl a g).1 in
      let config := AI_CONFIG (difficulty gs) in
      aiAnsweredRef a' = false
      /\ gameState a' = gs
      /\ (forall n, (initAIWith fl a g).2 n = g (S n))
      /\ (inject_Z GAME_DURATION_SECONDS - maxDelay config
          <= aiTriggerTimeRef a')%Q
      /\ (aiTriggerTimeRef a'
          <= inject_Z GAME_DURATION_SECONDS - minDelay config)%Q
      /\ (0 <= aiTriggerTimeRef a')%Q
      /\ (aiTriggerTimeRef a' <= 8)%Q).
Proof.
  cbv zeta. unfold initAIWith. split.
  - intros [H | H]; repeat case_bool_decide; simpl; congruence.
  - intros Hst Hm Hfl H0 H1. rewrite Hst, Hm.
    rewrite !bool_decide_eq_true_2 by reflexivity.
    unfold random, setAiTriggerTime, setAiAnswered, GAME_DURATION_SECONDS.
    cbn [andb fst snd aiAnsweredRef aiTriggerTimeRef gameState].
    split; [reflexivity |]. split; [reflexivity |].
    split; [reflexivity |].
    assert (Hstep : forall lo hi : Z,
               -40 <= lo <= 40 -> -40 <= hi <= 40 -> lo <= hi ->
               -40 <= hi - lo <= 40 -> -40 <= 40 - hi -> 40 - lo <= 40 ->
               forall mn mx : Q, (mn == lo # 4)%Q -> (mx == hi # 4)%Q ->
               let t := fl (10 - fl (mn + fl (g O * fl (mx - mn))))%Q in
               ((40 - hi) # 4 <= t)%Q /\ (t <= (40 - lo) # 4)%Q).
    { intros lo hi Hlo Hhi Hle Hd Hh Hl mn mx Emn Emx. cbv zeta.
      assert (Er : (fl (mx - mn) == (hi - lo) # 4)%Q).
      { rewrite (rounding_respects fl (mx - mn)%Q ((hi - lo) # 4) Hfl).
        - apply (proj2 Hfl). lia.
        - rewrite Emn, Emx. unfold Qeq, Qminus, Qplus, Qopp. simpl. lia. }
      assert (Hlohi : (0 <= (hi - lo) # 4)%Q) by (unfold Qle; simpl; lia).
      destruct (rounding_between fl 0 (hi - lo) (g O * fl (mx - mn))%Q Hfl)
        as [Hx1 Hx2]; try lia.
      { rewrite Er. apply Qle_trans with 0%Q; [discriminate |].
        apply Qmult_le_0_compat; assumption. }
      { rewrite Er. apply Qle_trans with (1 * ((hi - lo) # 4))%Q.
        - apply Qmult_le_compat_r; [apply Qlt_le_weak, H1 | exact Hlohi].
        - rewrite Qmult_1_l. apply Qle_refl. }
      set (x := fl (g O * fl (mx - mn))%Q) in *.
      destruct (rounding_between fl lo hi (mn + x)%Q Hfl) as [Hd1 Hd2];
        try lia.
      { rewrite Emn. assert (Hx0 : (0 <= x)%Q)
          by (apply Qle_trans with (0 # 4)%Q; [discriminate | exact Hx1]).
        lra. }
      { rewrite Emn.
        assert (Eh : (hi # 4 == (lo # 4) + ((hi - lo) # 4))%Q)
          by (unfold Qeq, Qplus; simpl; lia).
        rewrite Eh. lra. }
      set (d := fl (mn + x)%Q) in *.
      assert (E10h : ((40 - hi) # 4 == 10 - (hi # 4))%Q)
        by (unfold Qeq, Qminus, Qplus, Qopp; simpl; lia).
      assert (E10l : ((40 - lo) # 4 == 10 - (lo # 4))%Q)
        by (unfold Qeq, Qminus, Qplus, Qopp; simpl; lia).
      apply (rounding_between fl (40 - hi) (40 - lo) (10 - d)%Q Hfl);
        try lia.
      - rewrite E10h. lra.
      - rewrite E10l. lra. }
    change (inject_Z 10) with 10%Q.
    destruct (difficulty (gameState a)); cbn [AI_CONFIG minDelay maxDelay].
    + destruct (Hstep 24 40 ltac:(lia) ltac:(lia) ltac:(lia) ltac:(lia)
                  ltac:(lia) ltac:(lia) 6%Q 10%Q
                  ltac:(reflexivity) ltac:(reflexivity)) as [Ha Hb].
      cbv zeta in Ha, Hb. change (40 - 40) with 0 in Ha.
      change (40 - 24) with 16 in Hb.
      repeat split; lra.
    + destruct (Hstep 20 32 ltac:(lia) ltac:(lia) ltac:(lia) ltac:(lia)
                  ltac:(lia) ltac:(lia) 5%Q 8%Q
                  ltac:(reflexivity) ltac:(reflexivity)) as [Ha Hb].
      cbv zeta in Ha, Hb. change (40 - 32) with 8 in Ha.
      change (40 - 20) with 20 in Hb.
      repeat split; lra.
    + destruct (Hstep 14 24 ltac:(lia) ltac:(lia) ltac:(lia) ltac:(lia)
                  ltac:(lia) ltac:(lia) (35 # 10)%Q 6%Q
                  ltac:(reflexivity) ltac:(reflexivity)) as [Ha Hb].
      cbv zeta in Ha, Hb. change (40 - 24) with 16 in Ha.
      change (40 - 14) with 26 in Hb.
      repeat split; lra.
    + destruct (Hstep 8 16 ltac:(lia) ltac:(lia) ltac:(lia) ltac:(lia)
                  ltac:(lia) ltac:(lia) 2%Q 4%Q
                  ltac:(reflexivity) ltac:(reflexivity)) as [Ha Hb].
      cbv zeta in Ha, Hb. change (40 - 16) with 24 in Ha.
      change (40 - 8) with 32 in Hb.
      repeat split; lra.
Qed.

Lemma initAI_trigger_witness :
  (0 <= aiTriggerTimeRef
          (initAIWith roundToEighths sampleApp (constRng (7 # 8))).1)%Q
  /\ (aiTriggerTimeRef
        (initAIWith roundToEighths sampleApp (constRng (7 # 8))).1 <= 8)%Q.
Proof.
  destruct (proj2 (initAI_trigger roundToEighths sampleApp
                     (constRng (7 # 8)))
              eq_refl eq_refl roundToEighths_ok)
    as (_ & _ & _ & _ & _ & H1 & H2).
  - discriminate.
  - reflexivity.
  - split; [exact H1 | exact H2].
Defined.

(** ** A pending advance and the next game *)

Lemma startPlaying_fields (Q : list Question) (m : GameMode)
    (d : Difficulty) (a : App) (g : rng) :
  let a' := (startPlaying Q m d a g).1 in
  timeouts a' = timeouts a
  /\ localStorage a' = localStorage a
  /\ playerName a' = [] /\ isScoreSaved a' = false
  /\ activeQuestions a' = (getWeightedQuestions Q g).1
  /\ gameState a'
     = set_status playing
         (set_gameMode m
            (mkGameState start single d 0 0 0 0 0 QUESTIONS_PER_GAME
               GAME_DURATION_SECONDS None false false false false)).
Proof.
  unfold startPlaying. destruct (getWeightedQuestions Q g). simpl.
  repeat split; reflexivity.
Qed.

(** X21. Starting a game resets the whole session, the name and the saved
    flag, whatever the state before, but not the pending timeouts.  So an
    advance still pending when the exit is confirmed fires into the next
    game: after confirm, new single-player game and that timeout, the new
    game is at its second question with a full clock and no points. *)
Theorem pending_advance_enters_next_game (Q : list Question) (a : App)
    (g : rng) (n : nat) (ms : Z) :
  timeouts a !! n = Some (ms, CallHandleNext) ->
  let r := (run Q [ConfirmExit; ModeSelect single; Fire n] (a, g)).1 in
  status (gameState r) = playing
  /\ currentQuestionIndex (gameState r) = 1
  /\ timeLeft (gameState r) = GAME_DURATION_SECONDS
  /\ score (gameState r) = 0
  /\ activeQuestions r = (getWeightedQuestions Q g).1
  /\ timeouts r = delete n (timeouts a).
Proof.
  intros Hn. cbv zeta. unfold run. simpl fold_left.
  unfold handleModeSelect.
  pose proof (startPlaying_fields Q single D2 (handleConfirmExit a) g)
    as (Ht & _ & _ & _ & Hq & Hg).
  destruct (startPlaying Q single D2 (handleConfirmExit a) g) as [b g'].
  simpl in Ht, Hq, Hg. simpl.
  unfold fire. rewrite Ht. simpl. rewrite Hn. simpl.
  rewrite Hg, Hq. unfold nextState. simpl.
  repeat split; reflexivity.
Qed.

Lemma pending_advance_enters_next_game_witness :
  let a := (handleSelectOption (js "B")
              (setGameState (set_timeLeft 4) sampleApp) (constRng 0)).1 in
  let r := (run sampleBank [ConfirmExit; ModeSelect single; Fire 0]
              (a, constRng (1 # 3))).1 in
  status (gameState r) = playing
  /\ currentQuestionIndex (gameState r) = 1.
Proof.
  cbv zeta.
  destruct (pending_advance_enters_next_game sampleBank
              (handleSelectOption (js "B")
                 (setGameState (set_timeLeft 4) sampleApp) (constRng 0)).1
              (constRng (1 # 3)) 0 1500 eq_refl) as (H1 & H2 & _).
  split; [exact H1 | exact H2].
Defined.

(** ** Leaderboard: a missing or unreadable board *)

(** X22. A board that is missing or cannot be parsed counts as empty: it
    is read as no entries, any positive score qualifies and no other does,
    and a submission with a name that is not blank replaces it by a board
    holding just the new entry. *)
Theorem unreadable_board_is_empty (now : Z) (a : App) :
  quiz_leaderboard (localStorage a) = Missing
  \/ quiz_leaderboard (localStorage a) = Garbled ->
  getLeaderboard (localStorage a) = []
  /\ (forall sc, isHighScore sc (localStorage a) = true <-> 0 < sc)
  /\ (~ blankName (playerName a) ->
      quiz_leaderboard (localStorage (handleSaveScore now a))
      = Holds [mkEntry (substring0 10 (trim (playerName a)))
                 (score (gameState a)) now]).
Proof.
  intros Hq.
  assert (He : getLeaderboard (localStorage a) = []).
  { unfold getLeaderboard. destruct Hq as [-> | ->]; reflexivity. }
  split; [exact He |]. split.
  - intros sc. unfold isHighScore. rewrite He. simpl.
    destruct (Z.leb_spec sc 0); split; intros; try discriminate;
      try reflexivity; lia.
  - intros Hname. unfold handleSaveScore.
    destruct (trim (playerName a)) as [| c r] eqn:Ht.
    + exfalso. apply Hname, trim_nil_iff, Ht.
    + rewrite He. reflexivity.
Qed.

Lemma unreadable_board_is_empty_witness :
  quiz_leaderboard
    (localStorage
       (handleSaveScore 7
          (setLocalStorage (mkStorage Garbled Missing)
             (setPlayerName (js "Ann") sampleApp))))
  = Holds [mkEntry (js "Ann") 250 7].
Proof.
  refine (proj2 (proj2 (unreadable_board_is_empty 7
                          (setLocalStorage (mkStorage Garbled Missing)
                             (setPlayerName (js "Ann") sampleApp))
                          (or_intror eq_refl))) _).
  intros H. apply trim_nil_iff in H. discriminate H.
Defined.

(** ** The timer on its own *)

Lemma timerEffect_timeLeft (a : App) (g : rng) :
  timeLeft (gameState (timerEffect a g).1) = timeLeft (gameState a).
Proof.
  unfold timerEffect.
  destruct (negb _); [reflexivity |].
  destruct (_ || _); [reflexivity |].
  destruct (timeLeft (gameState a) <=? 0).
  - unfold timeoutUpdate.
    destruct (gameMode (gameState a)); [reflexivity |].
    unfold executeAIAnswer. destruct (aiAnsweredRef a); [reflexivity |].
    unfold random. destruct (calculateNewScoreState _ _ _ _). reflexivity.
  - destruct (_ && _); [| reflexivity].
    unfold executeAIAnswer. destruct (aiAnsweredRef a); [reflexivity |].
    unfold random. destruct (calculateNewScoreState _ _ _ _). reflexivity.
Qed.

Lemma second_timeLeft (p : App * rng) :
  0 <= timeLeft (gameState p.1) ->
  0 <= timeLeft (gameState (second p).1)
  /\ timeLeft (gameState (second p).1) <= timeLeft (gameState p.1).
Proof.
  destruct p as [a g]. simpl. intros H. unfold second. simpl.
  pose proof (timerEffect_timeLeft a g) as Ht.
  destruct (timerEffect a g) as [a' g']. simpl in Ht.
  unfold timerRunning.
  destruct (Z.ltb_spec 0 (timeLeft (gameState a))).
  - destruct (_ && _); simpl; lia.
  - rewrite andb_false_r. simpl. lia.
Qed.

Lemma second_stopped (a : App) (g : rng) :
  status (gameState a) <> playing \/ isAnswerRevealed (gameState a) = true
  \/ isPaused (gameState a) = true \/ isExitConfirmOpen (gameState a) = true ->
  second (a, g) = (a, g).
Proof.
  intros H. unfold second, timerRunning, timerEffect. simpl.
  destruct H as [H | [H | [H | H]]].
  - case_bool_decide; [contradiction | reflexivity].
  - rewrite H. simpl. destruct (negb _); rewrite ?andb_false_r; reflexivity.
  - rewrite H, !orb_true_r. simpl.
    destruct (negb _); rewrite ?andb_false_r; reflexivity.
  - rewrite H, !orb_true_r. simpl.
    destruct (negb _); rewrite ?andb_false_r; reflexivity.
Qed.

(** X23. Left to itself the timer never takes the time below 0 and never
    raises it; and it stands still, whatever the time left, while the game
    is not being played, the answer is revealed, the game is paused or the
    exit confirmation is open. *)
Theorem timer_alone (k : nat) (a : App) (g : rng) :
  (0 <= timeLeft (gameState a) ->
   0 <= timeLeft (gameState (seconds k (a, g)).1) <= timeLeft (gameState a))
  /\ (status (gameState a) <> playing
      \/ isAnswerRevealed (gameState a) = true
      \/ isPaused (gameState a) = true
      \/ isExitConfirmOpen (gameState a) = true ->
      seconds k (a, g) = (a, g)).
Proof.
  split.
  - intros H. induction k as [| k IH]; [simpl; lia |].
    unfold seconds in *. simpl Nat.iter.
    destruct (second_timeLeft (Nat.iter k second (a, g))) as [H1 H2]; lia.
  - intros H. induction k as [| k IH]; [reflexivity |].
    unfold seconds in *. simpl Nat.iter. rewrite IH.
    apply second_stopped, H.
Qed.

Lemma timer_alone_witness :
  let a := setGameState (set_timeLeft 3) sampleApp in
  0 <= timeLeft (gameState (seconds 9 (a, constRng 0)).1) <= 3
  /\ seconds 9 (handlePause a, constRng 0) = (handlePause a, constRng 0).
Proof.
  cbv zeta.
  destruct (timer_alone 9 (setGameState (set_timeLeft 3) sampleApp)
              (constRng 0)) as [H1 _].
  destruct (timer_alone 9
              (handlePause (setGameState (set_timeLeft 3) sampleApp))
              (constRng 0)) as [_ H2].
  split; [apply H1; simpl; lia |].
  apply H2. right. right. left. reflexivity.
Defined.

(** ** The name form of the finished screen *)

(** X24. The finished screen offers the name form only in single-player
    mode, for a positive score and before a save; once a score is saved
    under a name that is not blank, the form is not offered again. *)
Theorem submission_offered_once (now : Z) (a : App) :
  (canSubmitScore a = true ->
   gameMode (gameState a) = single /\ 0 < score (gameState a)
   /\ isScoreSaved a = false)
  /\ (~ blankName (playerName a) ->
      isScoreSaved (handleSaveScore now a) = true
      /\ canSubmitScore (handleSaveScore now a) = false).
Proof.
  split.
  - unfold canSubmitScore, isHighScore. intros H.
    apply andb_true_iff in H as [H Hs].
    apply andb_true_iff in H as [Hm Hh].
    apply bool_decide_eq_true in Hm.
    destruct (Z.leb_spec (score (gameState a)) 0); [discriminate |].
    destruct (isScoreSaved a); [discriminate |]. auto.
  - intros Hname.
    assert (Hs : isScoreSaved (handleSaveScore now a) = true).
    { unfold handleSaveScore.
      destruct (trim (playerName a)) as [| c r] eqn:Ht; [| reflexivity].
      exfalso. apply Hname, trim_nil_iff, Ht. }
    split; [exact Hs |].
    unfold canSubmitScore. rewrite Hs. apply andb_false_r.
Qed.

Lemma submission_offered_once_witness :
  let a := setPlayerName (js "Ann")
             (setGameState
                (fun s => set_status finished (set_gameMode single s))
                sampleApp) in
  canSubmitScore a = true
  /\ (gameMode (gameState a) = single /\ 0 < score (gameState a)
      /\ isScoreSaved a = false)
  /\ (isScoreSaved (handleSaveScore 7 a) = true
      /\ canSubmitScore (handleSaveScore 7 a) = false).
Proof.
  cbv zeta.
  pose proof (submission_offered_once 7
                (setPlayerName (js "Ann")
                   (setGameState
                      (fun s => set_status finished (set_gameMode single s))
                      sampleApp))) as [H1 H2].
  split; [reflexivity |]. split.
  - apply H1. reflexivity.
  - apply H2. intros H. apply trim_nil_iff in H. discriminate H.
Defined.
